(** * overrides.py: the [@overrides] decorator

    A shallow embedding of [overrides/overrides.py] (version 7.2.0):

    - [_get_base_class_names] scans the executed instructions of the frame
      that holds the [class] statement and rebuilds the dotted names written
      as base classes;
    - [_get_base_class] resolves one dotted name in the method's globals;
    - [_validate_method] checks the finalisation marker, copies the
      docstring and calls the signature checker;
    - [_overrides] marks the method, looks for the first base class that has
      an attribute of the method's name and validates now or wraps.

    Python objects are modelled by what the module observes of them
    ([getattr], [str], truth value, [isinstance], subscript).  Classes and
    namespaces are only read, so they are values; the decorated method is
    written to ([__override__], [__doc__]), so it lives in a state that every
    operation threads, together with the trace of calls made to code outside
    this file (the signature checker, the method's own body). *)

From Stdlib Require Import ZArith String List Bool Lia.
From stdpp Require Import base option gmap strings list.

Set Warnings "-register-all".
Open Scope string_scope.
Open Scope Z_scope.
Open Scope list_scope.

(** ** Python objects, as observed by the module *)

(** The classes the module tests with [isinstance]. *)
Inductive pyclass : Type :=
| TDict
| TProperty
| TOther.

#[global] Instance pyclass_eq_dec : EqDecision pyclass.
Proof. solve_decision. Defined.

(** [py_attrs] maps each attribute name to the value [getattr] returns for it
    and to whether the raw entry that [inspect.getattr_static] finds under
    that name is a [staticmethod]; [py_items] holds the entries of a [dict]
    (string keys); [py_str] is [str(obj)] and [py_truth] is [bool(obj)]. *)
Inductive pyobj : Type := PyObj {
  py_class : pyclass;
  py_str : string;
  py_truth : bool;
  py_attrs : gmap string (pyobj * bool);
  py_items : gmap string pyobj }.

Definition None_ : pyobj :=
  {| py_class := TOther; py_str := "None"; py_truth := false;
     py_attrs := ∅; py_items := ∅ |}.

Definition True_ : pyobj :=
  {| py_class := TOther; py_str := "True"; py_truth := true;
     py_attrs := ∅; py_items := ∅ |}.

Definition str_ (s : string) : pyobj :=
  {| py_class := TOther; py_str := s;
     py_truth := negb (String.eqb s ""); py_attrs := ∅; py_items := ∅ |}.

Definition isinstance (obj : pyobj) (c : pyclass) : bool :=
  bool_decide (py_class obj = c).

(** ** Exceptions and results *)

(** The three [TypeError]s of the decorator, kept apart by their origin:
    line 117, line 126, and the signature checker. *)
Inductive type_error : Type :=
| NoSuperClassMethod (qualname : string)
| Finalized (name : string) (super_class : pyobj)
| Incompatible (msg : string).

Inductive exn : Type :=
| TypeError (why : type_error)
| KeyError (key : string)
| AttributeError (name : string)
| IndexError
| ValueError.


Inductive result (A : Type) : Type :=
| Ok (a : A)
| Raise (e : exn).

Arguments Ok {A} a.
Arguments Raise {A} e.

#[global] Instance result_ret : MRet result := λ A, Ok.

#[global] Instance result_bind : MBind result := λ A B f r,
  match r with
  | Ok a => f a
  | Raise e => Raise e
  end.

Definition succeeds {A : Type} (r : result A) : bool :=
  match r with
  | Ok _ => true
  | Raise _ => false
  end.

(** ** Attribute access *)

(** [getattr(obj, name)].  Every object answers [__doc__] (its type gives it
    one, [None] when nothing was written); any other name that is not in
    [py_attrs] raises [AttributeError]. *)
Definition py_getattr (obj : pyobj) (name : string) : result pyobj :=
  match py_attrs obj !! name with
  | Some (value, _) => Ok value
  | None =>
      if decide (name = "__doc__") then Ok None_
      else Raise (AttributeError name)
  end.

(** [hasattr(obj, name)]: [getattr] did not raise [AttributeError]. *)
Definition hasattr (obj : pyobj) (name : string) : bool :=
  succeeds (py_getattr obj name).

(** [isinstance(inspect.getattr_static(obj, name), staticmethod)]. *)
Definition getattr_static_is_staticmethod
    (obj : pyobj) (name : string) : result bool :=
  match py_attrs obj !! name with
  | Some (_, static) => Ok static
  | None =>
      if decide (name = "__doc__") then Ok false
      else Raise (AttributeError name)
  end.

(** [getattr(obj, "__final__", False)], then its truth value. *)
Definition is_final (obj : pyobj) : bool :=
  match py_attrs obj !! "__final__" with
  | Some (value, _) => py_truth value
  | None => false
  end.

(** [mapping[key]] on a [dict] with string keys. *)
Definition getitem (mapping : gmap string pyobj) (key : string) : result pyobj :=
  match mapping !! key with
  | Some value => Ok value
  | None => Raise (KeyError key)
  end.

(** ** Frames and instructions *)

(** One [dis.Instruction]; [argval] is the name an instruction with a name
    operand refers to. *)
Record instruction : Type := {
  opname : string;
  opcode : Z;
  argval : string;
  offset : Z }.

(** A frame: [f_code] stands for the instructions that
    [dis.get_instructions(frame.f_code)] yields. *)
Record frame : Type := {
  f_code : list instruction;
  f_lasti : Z }.

(** ** The decorated method *)

Record method : Type := {
  __name__ : string;
  __qualname__ : string;
  __module__ : string;
  __globals__ : option (gmap string pyobj);
  __doc__ : pyobj;
  __override__ : option pyobj }.

(** ** What the module imports *)

(** [dis.hasname], the signature checker of [overrides.signature] (returns
    the message of the [TypeError] it raises, if any) and the body of the
    decorated method. *)
Class Host : Type := {
  hasname : list Z;
  ensure_signature_is_compatible : pyobj → method → bool → option string;
  method_body : method → list pyobj → result pyobj }.

(** ** The base-class scanner *)

(** A token is a pair of a tag, ["name"] or ["attr"], and an identifier. *)
Definition token : Type := string * string.

Definition nonempty {A : Type} (l : list A) : bool :=
  match l with
  | [] => false
  | _ :: _ => true
  end.

Section Scanner.
Context `{Host}.

(** The first loop of [_get_base_class_names] (lines 148 to 163), from any
    point of the iteration: it returns [extends] and [add_last_step] as they
    are when the loop is left. *)
Fixpoint collect_tokens (lasti : Z) (instructions : list instruction)
    (extends : list token) (add_last_step : bool) : list token * bool :=
  match instructions with
  | [] => (extends, add_last_step)
  | instruction :: rest =>
      if bool_decide (offset instruction > lasti) then
        (extends, add_last_step)
      else if bool_decide (opcode instruction ∉ hasname) then
        collect_tokens lasti rest extends add_last_step
      else
        let extends := if add_last_step then extends else [] in
        if decide (opname instruction = "LOAD_NAME") then
          collect_tokens lasti rest
            (extends ++ [("name", argval instruction)]) true
        else if decide (opname instruction = "LOAD_ATTR") then
          collect_tokens lasti rest
            (extends ++ [("attr", argval instruction)]) true
        else if decide (opname instruction = "LOAD_GLOBAL") then
          collect_tokens lasti rest
            (extends ++ [("name", argval instruction)]) true
        else
          collect_tokens lasti rest extends false
  end.

(** The second loop (lines 167 to 173): [items] is the list of completed
    paths and [previous_item] the path being built. *)
Fixpoint group_tokens (extends : list token)
    (items : list (list string)) (previous_item : list string)
    : list (list string) * list string :=
  match extends with
  | [] => (items, previous_item)
  | (t, s) :: rest =>
      if decide (t = "name") then
        group_tokens rest
          (if nonempty previous_item then items ++ [previous_item] else items)
          [s]
      else
        group_tokens rest items (previous_item ++ [s])
  end.

(** Lines 174 to 176: the path being built joins the completed ones when it
    has a segment. *)
Definition flush (st : list (list string) * list string) : list (list string) :=
  if nonempty st.2 then st.1 ++ [st.2] else st.1.

Definition _get_base_class_names (frame : frame) : list (list string) :=
  let extends := (collect_tokens (f_lasti frame) (f_code frame) [] true).1 in
  flush (group_tokens extends [] []).

(** ** Resolving one dotted path *)

(** Lines 187 to 189. *)
Fixpoint follow_components (obj : pyobj) (components : list string)
    : result pyobj :=
  match components with
  | [] => Ok obj
  | component :: rest =>
      if hasattr obj component then
        obj ← py_getattr obj component;
        follow_components obj rest
      else follow_components obj rest
  end.

(** Lines 180 to 186: [components[0]] in the namespace, or else in its
    ["__builtins__"], a [dict] or a module. *)
Definition lookup_first (components : list string)
    (namespace : gmap string pyobj) : result pyobj :=
  first ← match components with
          | [] => Raise IndexError
          | first :: _ => Ok first
          end;
  match namespace !! first with
  | Some obj => Ok obj
  | None =>
      builtins ← getitem namespace "__builtins__";
      if isinstance builtins TDict then getitem (py_items builtins) first
      else py_getattr builtins first
  end.

Definition _get_base_class (components : list string)
    (namespace : gmap string pyobj) : result pyobj :=
  obj ← lookup_first components namespace;
  follow_components obj (tail components).

Definition _get_base_classes (frame : frame)
    (namespace : gmap string pyobj) : result (list pyobj) :=
  mapM (λ class_name_components,
          _get_base_class class_name_components namespace)
       (_get_base_class_names frame).

End Scanner.

(** ** State: the method object and the trace of outside calls *)

Inductive event : Type :=
| SignatureChecked (super_method : pyobj) (overriding : method) (is_static : bool)
| MethodCalled (callee : method) (args : list pyobj).

Record state : Type := {
  the_method : method;
  events : list event }.

(** A computation reads and writes the state and returns or raises; the
    state is kept when it raises. *)
Definition run (A : Type) : Type := state → result A * state.

#[global] Instance run_ret : MRet run := λ A a st, (Ok a, st).

#[global] Instance run_bind : MBind run := λ A B f c st,
  match c st with
  | (Ok a, st') => f a st'
  | (Raise e, st') => (Raise e, st')
  end.

Definition lift {A : Type} (r : result A) : run A := λ st, (r, st).

Definition raise {A : Type} (e : exn) : run A := λ st, (Raise e, st).

Definition get_method : run method := λ st, (Ok (the_method st), st).

Definition update_method (f : method → method) : run unit := λ st,
  (Ok tt, {| the_method := f (the_method st); events := events st |}).

Definition emit (e : event) : run unit := λ st,
  (Ok tt, {| the_method := the_method st; events := events st ++ [e] |}).

Definition set_override (value : pyobj) (m : method) : method :=
  {| __name__ := __name__ m; __qualname__ := __qualname__ m;
     __module__ := __module__ m; __globals__ := __globals__ m;
     __doc__ := __doc__ m; __override__ := Some value |}.

Definition set_doc (value : pyobj) (m : method) : method :=
  {| __name__ := __name__ m; __qualname__ := __qualname__ m;
     __module__ := __module__ m; __globals__ := __globals__ m;
     __doc__ := value; __override__ := __override__ m |}.

(** What [_overrides] returns: the method object it was given, or the
    closure [wrapper], which holds [method], [super_class] and
    [check_signature].  The closure holds the class by reference:
    [super_class] is the class as it was at decoration and stands for the
    class object; [call] below reads the class as it is when the call is
    made.  The attributes that [functools.wraps] copies onto the wrapper are
    not represented: nothing here reads them. *)
Inductive decorated : Type :=
| TheMethod
| Wrapper (super_class : pyobj) (check_signature : bool).

(** What the interpreter provides: [sys.modules] (each module by its
    [vars]) and the call stack, innermost frame first, as [sys._getframe]
    sees it from inside [_overrides]. *)
Record interpreter : Type := {
  sys_modules : gmap string (gmap string pyobj);
  call_stack : list frame }.

Definition sys_getframe (env : interpreter) (depth : nat) : result frame :=
  match call_stack env !! depth with
  | Some frame => Ok frame
  | None => Raise ValueError
  end.

Definition module_vars (env : interpreter) (name : string)
    : result (gmap string pyobj) :=
  match sys_modules env !! name with
  | Some vars => Ok vars
  | None => Raise (KeyError name)
  end.

Section Decorator.
Context `{Host}.

(** [ensure_signature_is_compatible(super_method, method, is_static)]. *)
Definition check_signature_call (super_method : pyobj) (is_static : bool)
    : run unit :=
  method ← get_method;
  emit (SignatureChecked super_method method is_static);;
  match ensure_signature_is_compatible super_method method is_static with
  | None => mret tt
  | Some msg => raise (TypeError (Incompatible msg))
  end.

(** Line 111: the method applied to the arguments it was called with. *)
Definition call_method (args : list pyobj) : run pyobj :=
  method ← get_method;
  emit (MethodCalled method args);;
  lift (method_body method args).

(** Lines 120 to 134. *)
Definition _validate_method (super_class : pyobj) (check_signature : bool)
    : run unit :=
  method ← get_method;
  super_method ← lift (py_getattr super_class (__name__ method));
  is_static ← lift (getattr_static_is_staticmethod super_class (__name__ method));
  if is_final super_method then
    raise (TypeError (Finalized (__name__ method) super_class))
  else
    (if negb (py_truth (__doc__ method)) then
       doc ← lift (py_getattr super_method "__doc__");
       update_method (set_doc doc)
     else mret tt);;
    if check_signature
       && negb (String.prefix "__" (__name__ method))
       && negb (isinstance super_method TProperty)
    then check_signature_call super_method is_static
    else mret tt.

(** Lines 101 to 104: the globals of the method, or else the [vars] of its
    module; the frame three levels up; the base classes found there. *)
Definition resolved_base_classes (env : interpreter) (method : method)
    : result (list pyobj) :=
  global_vars ← match __globals__ method with
                | Some global_vars => Ok global_vars
                | None => module_vars env (__module__ method)
                end;
  frame ← sys_getframe env 3;
  _get_base_classes frame global_vars.

(** Lines 104 to 117: the [for] loop and the [raise] after it. *)
Fixpoint first_super_class (bases : list pyobj)
    (check_signature check_at_runtime : bool) : run decorated :=
  match bases with
  | [] =>
      method ← get_method;
      raise (TypeError (NoSuperClassMethod (__qualname__ method)))
  | super_class :: rest =>
      method ← get_method;
      if hasattr super_class (__name__ method) then
        if check_at_runtime then mret (Wrapper super_class check_signature)
        else
          _validate_method super_class check_signature;;
          mret TheMethod
      else first_super_class rest check_signature check_at_runtime
  end.

(** Lines 97 to 117. *)
Definition _overrides (env : interpreter)
    (check_signature check_at_runtime : bool) : run decorated :=
  update_method (set_override True_);;
  method ← get_method;
  bases ← lift (resolved_base_classes env method);
  first_super_class bases check_signature check_at_runtime.

(** Calling what [_overrides] returned (lines 109 to 111 for [wrapper]).
    Objects are values in this development, so what was assigned to a class
    between the decoration and the call is given by [now]: [now obj] is the
    object [obj], captured earlier, as it is at the time of the call.  The
    wrapper validates against [now super_class], the live class. *)
Definition call (now : pyobj → pyobj) (f : decorated) (args : list pyobj)
    : run pyobj :=
  match f with
  | TheMethod => call_method args
  | Wrapper super_class check_signature =>
      _validate_method (now super_class) check_signature;;
      call_method args
  end.

End Decorator.

(** ** Notions used to state the properties *)

Section Notions.
Context `{Host}.

(** An instruction the first loop reaches: it is not past [f_lasti]. *)
Definition in_range (lasti : Z) (i : instruction) : Prop := offset i ≤ lasti.

(** The three instructions that add a token. *)
Definition is_load (i : instruction) : bool :=
  bool_decide (opname i = "LOAD_NAME")
  || bool_decide (opname i = "LOAD_ATTR")
  || bool_decide (opname i = "LOAD_GLOBAL").

(** The tokens the first loop still holds once it has gone through
    [instructions] and the next name-referencing instruction arrives: all of
    [extends] when [add_last_step] is true, none when it is false (lines 153
    to 155). *)
Definition retained_tokens (lasti : Z) (instructions : list instruction)
    : list token :=
  let '(extends, add_last_step) := collect_tokens lasti instructions [] true in
  if add_last_step then extends else [].

(** The completed paths and the open path that those tokens make: [items]
    and [previous_item] of the second loop. *)
Definition path_state (lasti : Z) (instructions : list instruction)
    : list (list string) * list string :=
  group_tokens (retained_tokens lasti instructions) [] [].

(** The override target: the first base class that has an attribute of the
    given name. *)
Definition override_target (bases : list pyobj) (name : string) : option pyobj :=
  List.find (λ super_class, hasattr super_class name) bases.

(** The test of line 129 to 133. *)
Definition signature_checked (check_signature : bool) (name : string)
    (super_method : pyobj) : bool :=
  check_signature && negb (String.prefix "__" name)
  && negb (isinstance super_method TProperty).

(** One step of a best-effort walk: the attribute when the object has it,
    the object itself when it has not. *)
Definition skip_or_follow (obj : pyobj) (component : string) : pyobj :=
  match py_getattr obj component with
  | Ok attr => attr
  | Raise _ => obj
  end.

(** [obj.__doc__]. *)
Definition docstring (obj : pyobj) : pyobj :=
  match py_attrs obj !! "__doc__" with
  | Some (doc, _) => doc
  | None => None_
  end.

(** Whether the raw entry of an attribute is a [staticmethod]. *)
Definition static_of (obj : pyobj) (name : string) : bool :=
  match py_attrs obj !! name with
  | Some (_, static) => static
  | None => false
  end.

(** The state once line 100 has run. *)
Definition marked (st : state) : state :=
  {| the_method := set_override True_ (the_method st); events := events st |}.

(** The state once lines 127 and 128 have run against [super_method]. *)
Definition documented (super_method : pyobj) (st : state) : state :=
  if py_truth (__doc__ (the_method st)) then st
  else {| the_method := set_doc (docstring super_method) (the_method st);
          events := events st |}.

End Notions.

(** ** The public entry point *)

(** What [overrides] returns: what [_overrides] returned for the method, or
    the [functools.partial] that keeps the two options. *)
Inductive applied : Type :=
| Applied (f : decorated)
| Partial (check_signature check_at_runtime : bool).

(** The interpreter once a call has pushed the frame [own]. *)
Definition entered (own : frame) (env : interpreter) : interpreter :=
  {| sys_modules := sys_modules env; call_stack := own :: call_stack env |}.

Section Entry.
Context `{Host}.

(** Lines 52 to 94.  [env] is the interpreter as the caller of [overrides]
    sees it; [own] holds the frames that the calls of [overrides] and of
    [_overrides] push.  [method] is [Some tt] for the method object of the
    state and [None] for [None]. *)
Definition overrides (own : frame * frame) (env : interpreter)
    (method : option unit) (check_signature check_at_runtime : bool)
    : run applied :=
  match method with
  | Some _ =>
      f ← _overrides (entered own.2 (entered own.1 env))
            check_signature check_at_runtime;
      mret (Applied f)
  | None => mret (Partial check_signature check_at_runtime)
  end.

(** Calling what [overrides] returned with the method: the partial calls
    [overrides] again with the method and the options it keeps (the call of
    a [functools.partial] pushes no frame of its own). *)
Definition call_partial (own : frame * frame) (env : interpreter)
    (p : applied) : run applied :=
  match p with
  | Partial check_signature check_at_runtime =>
      overrides own env (Some tt) check_signature check_at_runtime
  | Applied f => mret (Applied f)
  end.

End Entry.

(** ** More notions *)

Section MoreNotions.
Context `{Host}.

(** The token that a load adds (lines 156 to 161). *)
Definition token_of (i : instruction) : token :=
  (if decide (opname i = "LOAD_ATTR") then "attr" else "name", argval i).

(** The tokens of the loads that evaluate a dotted name: one name, then one
    attribute for each further segment. *)
Definition path_tokens (p : list string) : list token :=
  match p with
  | [] => []
  | first :: rest => ("name", first) :: map (λ s, ("attr", s)) rest
  end.

(** A load that the first loop handles. *)
Definition handled_load (lasti : Z) (i : instruction) : Prop :=
  in_range lasti i ∧ opcode i ∈ hasname ∧ is_load i = true.

(** The method that the signature checker is given: marked, and with the
    docstring of the target when its own was missing. *)
Definition checked_method (super_method : pyobj) (st : state) : method :=
  the_method (documented super_method (marked st)).

End MoreNotions.

(** The spec's words for the instructions that start a path: a load of a
    bare identifier, be it a local, a global or a free variable.  In CPython
    these are [LOAD_NAME], [LOAD_FAST], [LOAD_GLOBAL] and [LOAD_DEREF]. *)
Definition spec_identifier_load (i : instruction) : bool :=
  bool_decide (opname i ∈ ["LOAD_NAME"; "LOAD_FAST"; "LOAD_GLOBAL"; "LOAD_DEREF"]).

(** ** Sample data: CPython 3.8 byte code *)

Module Py38.

(** [dis.hasname] of CPython 3.8: STORE_NAME, DELETE_NAME, STORE_ATTR,
    DELETE_ATTR, STORE_GLOBAL, DELETE_GLOBAL, LOAD_NAME, LOAD_ATTR,
    IMPORT_NAME, IMPORT_FROM, LOAD_GLOBAL, LOAD_METHOD. *)
Definition names_3_8 : list Z := [90; 91; 95; 96; 97; 98; 101; 106; 108; 109; 116; 160].

Definition ins (name : string) (code : Z) (arg : string) (at_ : Z) : instruction :=
  {| opname := name; opcode := code; argval := arg; offset := at_ |}.

Definition LOAD_BUILD_CLASS := ins "LOAD_BUILD_CLASS" 71 "".
Definition STORE_NAME := ins "STORE_NAME" 90.
Definition LOAD_CONST := ins "LOAD_CONST" 100.
Definition BUILD_TUPLE := ins "BUILD_TUPLE" 102.
Definition LOAD_NAME := ins "LOAD_NAME" 101.
Definition LOAD_ATTR := ins "LOAD_ATTR" 106.
Definition LOAD_GLOBAL := ins "LOAD_GLOBAL" 116.
Definition LOAD_FAST := ins "LOAD_FAST" 124.
Definition CALL_FUNCTION := ins "CALL_FUNCTION" 131.
Definition MAKE_FUNCTION := ins "MAKE_FUNCTION" 132.
Definition LOAD_DEREF := ins "LOAD_DEREF" 136.

(** A host whose checker accepts everything, and one whose checker rejects
    everything. *)
Definition lenient : Host :=
  {| hasname := names_3_8;
     ensure_signature_is_compatible := λ _ _ _, None;
     method_body := λ _ _, Ok None_ |}.

Definition strict : Host :=
  {| hasname := names_3_8;
     ensure_signature_is_compatible := λ _ m _, Some (__name__ m +:+ ": not compatible");
     method_body := λ _ _, Ok None_ |}.

(** [class Sub(pkg.Base):] at module level, stopped in the call that builds
    the class. *)
Definition up_to_pkg : list instruction :=
  [LOAD_BUILD_CLASS 0; LOAD_CONST "<code>" 2; LOAD_CONST "Sub" 4;
   MAKE_FUNCTION "" 6; LOAD_CONST "Sub" 8; LOAD_NAME "pkg" 10].

Definition class_statement : frame :=
  {| f_code := up_to_pkg
               ++ [LOAD_ATTR "Base" 12; CALL_FUNCTION "" 14; STORE_NAME "Sub" 16];
     f_lasti := 14 |}.

(** [class Sub(Base):] inside a function whose variable [Base] is captured
    by an inner scope, so that the base is loaded with [LOAD_DEREF]. *)
Definition class_with_free_base : frame :=
  {| f_code := [LOAD_BUILD_CLASS 0; LOAD_CONST "<code>" 2; LOAD_CONST "Sub" 4;
                MAKE_FUNCTION "" 6; LOAD_CONST "Sub" 8; LOAD_DEREF "Base" 10;
                CALL_FUNCTION "" 12];
     f_lasti := 12 |}.

(** [x = (A, B)] followed by [class Sub(C):]. *)
Definition tuple_built : list instruction :=
  [LOAD_NAME "A" 0; LOAD_NAME "B" 2; BUILD_TUPLE "" 4].

Definition class_opened : list instruction :=
  [LOAD_BUILD_CLASS 8; LOAD_CONST "<code>" 10; LOAD_CONST "Sub" 12;
   MAKE_FUNCTION "" 14; LOAD_CONST "Sub" 16].

Definition two_statements : frame :=
  {| f_code := tuple_built ++ STORE_NAME "x" 6 :: class_opened
               ++ [LOAD_NAME "C" 18; CALL_FUNCTION "" 20];
     f_lasti := 20 |}.

(** A frame with no name-referencing instruction. *)
Definition no_names : frame :=
  {| f_code := [LOAD_CONST "1" 0; LOAD_CONST "2" 2; BUILD_TUPLE "" 4];
     f_lasti := 4 |}.

(** Objects: a method with a docstring, a sealed method, a property, the
    classes that hold them, and a module [pkg] that holds [Base]. *)
Definition obj (name : string) (attrs : gmap string (pyobj * bool)) : pyobj :=
  {| py_class := TOther; py_str := name; py_truth := true;
     py_attrs := attrs; py_items := ∅ |}.

Definition base_m : pyobj :=
  obj "<function Base.m>" {[ "__doc__" := (str_ "Base documentation", false) ]}.

Definition sealed_m : pyobj :=
  obj "<function Sealed.m>" {[ "__final__" := (True_, false) ]}.

Definition Base : pyobj := obj "<class 'pkg.Base'>" {[ "m" := (base_m, false) ]}.

Definition Sealed : pyobj := obj "<class 'Sealed'>" {[ "m" := (sealed_m, false) ]}.

Definition pkg : pyobj := obj "<module 'pkg'>" {[ "Base" := (Base, false) ]}.

Definition builtins : pyobj :=
  {| py_class := TDict; py_str := "{...}"; py_truth := true; py_attrs := ∅;
     py_items := {[ "object" := obj "<class 'object'>" ∅ ]} |}.

Definition globals : gmap string pyobj :=
  {[ "pkg" := pkg; "Sealed" := Sealed; "__builtins__" := builtins ]}.

(** The method [m] of [Sub], not yet decorated and without a docstring. *)
Definition m : method :=
  {| __name__ := "m"; __qualname__ := "Sub.m"; __module__ := "app";
     __globals__ := Some globals; __doc__ := None_; __override__ := None |}.

(** A method of another name: no base class has it. *)
Definition other : method :=
  {| __name__ := "other"; __qualname__ := "Sub.other"; __module__ := "app";
     __globals__ := Some globals; __doc__ := None_; __override__ := None |}.

Definition start (method : method) : state :=
  {| the_method := method; events := [] |}.

(** The frames of [_overrides], of [overrides] and of the class body have
    no part in the scan; only the fourth frame is read. *)
Definition inner : frame := {| f_code := []; f_lasti := 0 |}.

Definition stack_on (statement : frame) : interpreter :=
  {| sys_modules := ∅; call_stack := [inner; inner; inner; statement] |}.

(** [class Sub(Sealed):]. *)
Definition sealed_statement : frame :=
  {| f_code := [LOAD_BUILD_CLASS 0; LOAD_CONST "<code>" 2; LOAD_CONST "Sub" 4;
                MAKE_FUNCTION "" 6; LOAD_CONST "Sub" 8; LOAD_NAME "Sealed" 10;
                CALL_FUNCTION "" 12];
     f_lasti := 12 |}.

(** [class Sub:] as the first statement of a module. *)
Definition bare_statement : frame :=
  {| f_code := [LOAD_BUILD_CLASS 0; LOAD_CONST "<code>" 2; LOAD_CONST "Sub" 4;
                MAKE_FUNCTION "" 6; LOAD_CONST "Sub" 8; CALL_FUNCTION "" 10];
     f_lasti := 10 |}.

(** [Base] once its method [m] has been sealed, and the passing of time
    that seals it: every other object stays as it was. *)
Definition sealed_base_m : pyobj :=
  obj "<function Base.m>"
    {[ "__doc__" := (str_ "Base documentation", false);
       "__final__" := (True_, false) ]}.

Definition Base_sealed : pyobj :=
  obj "<class 'pkg.Base'>" {[ "m" := (sealed_base_m, false) ]}.

Definition sealed_later (o : pyobj) : pyobj :=
  if String.eqb (py_str o) (py_str Base) then Base_sealed else o.

(** A host whose checker accepts everything and whose method returns its
    first argument. *)
Definition echo : Host :=
  {| hasname := names_3_8;
     ensure_signature_is_compatible := λ _ _ _, None;
     method_body := λ _ args, Ok (default None_ (head args)) |}.

(** [class Sub(pkg.Base, Sealed):], in three parts: what precedes the base
    classes, their loads, and the call that builds the class. *)
Definition class_head : list instruction :=
  [LOAD_BUILD_CLASS 0; LOAD_CONST "<code>" 2; LOAD_CONST "Sub" 4;
   MAKE_FUNCTION "" 6; LOAD_CONST "Sub" 8].

Definition two_base_loads : list instruction :=
  [LOAD_NAME "pkg" 10; LOAD_ATTR "Base" 12; LOAD_NAME "Sealed" 14].

Definition two_bases : frame :=
  {| f_code := class_head ++ two_base_loads ++ [CALL_FUNCTION "" 16];
     f_lasti := 16 |}.

(** [class Sub(pkg.Base, nothing):], where [nothing] is bound nowhere. *)
Definition unknown_base : frame :=
  {| f_code := class_head
               ++ [LOAD_NAME "pkg" 10; LOAD_ATTR "Base" 12; LOAD_NAME "nothing" 14]
               ++ [CALL_FUNCTION "" 16];
     f_lasti := 16 |}.

(** The method [m] with a docstring of its own. *)
Definition m_with_doc : method :=
  {| __name__ := "m"; __qualname__ := "Sub.m"; __module__ := "app";
     __globals__ := Some globals; __doc__ := str_ "Own documentation";
     __override__ := None |}.

(** A decorator applied outside any class, at the top of a script: below
    the frames of [_overrides] and [overrides] there is the module only. *)
Definition top_of_script : interpreter :=
  {| sys_modules := ∅; call_stack := [inner; inner; inner] |}.

(** The interpreter as the body of a class sees it, the [class] statement
    being in [statement]; [deeper] are the frames below. *)
Definition in_class_body (body statement : frame) (deeper : list frame)
    : interpreter :=
  {| sys_modules := ∅; call_stack := body :: statement :: deeper |}.

End Py38.

(** * Properties of the scanner *)

Section ScannerFacts.
Context `{Host}.

Implicit Types (i j : instruction) (pre mid post : list instruction).
Implicit Types (extends : list token) (items : list (list string)).

Lemma in_range_no_break lasti i :
  in_range lasti i → bool_decide (offset i > lasti) = false.
Proof. unfold in_range. intros Hle. apply bool_decide_eq_false. lia. Qed.

Lemma hasname_not_skipped i :
  opcode i ∈ hasname → bool_decide (opcode i ∉ hasname) = false.
Proof. intros Hin. apply bool_decide_eq_false. tauto. Qed.

(** One turn of the first loop on an instruction it handles. *)
Lemma collect_tokens_handled lasti i post extends add_last_step :
  in_range lasti i → opcode i ∈ hasname →
  collect_tokens lasti (i :: post) extends add_last_step =
    let kept := if add_last_step then extends else [] in
    if is_load i then
      collect_tokens lasti post
        (kept ++ [(if decide (opname i = "LOAD_ATTR") then "attr" else "name",
                   argval i)]) true
    else collect_tokens lasti post kept false.
Proof.
  intros Hr Hn. cbn [collect_tokens].
  rewrite (in_range_no_break _ _ Hr), (hasname_not_skipped _ Hn).
  unfold is_load. cbn zeta.
  destruct (decide (opname i = "LOAD_NAME")) as [E1|E1].
  - rewrite (bool_decide_eq_true_2 _ E1). cbn.
    destruct (decide (opname i = "LOAD_ATTR")) as [E2|E2]; [congruence|done].
  - rewrite (bool_decide_eq_false_2 _ E1).
    destruct (decide (opname i = "LOAD_ATTR")) as [E2|E2].
    + rewrite (bool_decide_eq_true_2 _ E2). done.
    + rewrite (bool_decide_eq_false_2 _ E2).
      destruct (decide (opname i = "LOAD_GLOBAL")) as [E3|E3].
      * rewrite (bool_decide_eq_true_2 _ E3). done.
      * rewrite (bool_decide_eq_false_2 _ E3). done.
Qed.

(** An instruction without a name operand changes nothing. *)
Lemma collect_tokens_skipped lasti i post extends add_last_step :
  in_range lasti i → opcode i ∉ hasname →
  collect_tokens lasti (i :: post) extends add_last_step =
    collect_tokens lasti post extends add_last_step.
Proof.
  intros Hr Hn. cbn [collect_tokens].
  by rewrite (in_range_no_break _ _ Hr), (bool_decide_eq_true_2 _ Hn).
Qed.

(** The loop over a list in two parts, when it does not stop in the first. *)
Lemma collect_tokens_app lasti pre post extends add_last_step :
  Forall (in_range lasti) pre →
  collect_tokens lasti (pre ++ post) extends add_last_step =
    collect_tokens lasti post
      (collect_tokens lasti pre extends add_last_step).1
      (collect_tokens lasti pre extends add_last_step).2.
Proof.
  intros Hpre. revert extends add_last_step.
  induction Hpre as [|i pre Hi _ IH]; intros extends add_last_step; [done|].
  destruct (decide (opcode i ∈ hasname)) as [Hn|Hn].
  - rewrite <- app_comm_cons, !(collect_tokens_handled _ _ _ _ _ Hi Hn).
    cbn zeta. destruct (is_load i); apply IH.
  - rewrite <- app_comm_cons, !(collect_tokens_skipped _ _ _ _ _ Hi Hn).
    apply IH.
Qed.

Lemma collect_tokens_skip_all lasti mid post extends add_last_step :
  Forall (in_range lasti) mid →
  Forall (λ i, opcode i ∉ hasname) mid →
  collect_tokens lasti (mid ++ post) extends add_last_step =
    collect_tokens lasti post extends add_last_step.
Proof.
  intros Hr Hn. induction mid as [|i mid IH]; [done|].
  inversion Hr; inversion Hn; subst.
  rewrite <- app_comm_cons, collect_tokens_skipped by done. by apply IH.
Qed.

(** Once [add_last_step] is false, the next handled instruction starts from
    an empty token list. *)
Lemma collect_tokens_after_reset lasti j post extends :
  in_range lasti j → opcode j ∈ hasname →
  collect_tokens lasti (j :: post) extends false =
    collect_tokens lasti (j :: post) [] true.
Proof. intros Hr Hn. by rewrite !collect_tokens_handled. Qed.

(** The second loop over a list in two parts. *)
Lemma group_tokens_app (ts1 ts2 : list token) items previous_item :
  group_tokens (ts1 ++ ts2) items previous_item =
    group_tokens ts2 (group_tokens ts1 items previous_item).1
                     (group_tokens ts1 items previous_item).2.
Proof.
  revert items previous_item.
  induction ts1 as [|[t s] ts1 IH]; intros items previous_item; [done|].
  cbn [app group_tokens]. destruct (decide (t = "name")); apply IH.
Qed.

(** Every completed path has a segment. *)
Lemma group_tokens_nonempty (ts : list token) items previous_item :
  Forall (λ p, p ≠ []) items →
  Forall (λ p, p ≠ []) (group_tokens ts items previous_item).1.
Proof.
  revert items previous_item.
  induction ts as [|[t s] ts IH]; intros items previous_item Hitems; [done|].
  cbn [group_tokens]. destruct (decide (t = "name")); apply IH; [|done].
  destruct previous_item; [done|].
  cbn. apply Forall_app. split; [done|]. by constructor.
Qed.

Lemma flush_nonempty (st : list (list string) * list string) :
  Forall (λ p, p ≠ []) st.1 → Forall (λ p, p ≠ []) (flush st).
Proof.
  destruct st as [items [|s previous_item]]; unfold flush; cbn; [done|].
  intros Hitems. apply Forall_app. split; [done|]. by constructor.
Qed.

Lemma names_nonempty (frame : frame) :
  Forall (λ p, p ≠ []) (_get_base_class_names frame).
Proof.
  unfold _get_base_class_names. apply flush_nonempty.
  apply group_tokens_nonempty. constructor.
Qed.

(** Without a handled instruction the first loop gathers no token. *)
Lemma collect_tokens_no_names lasti code extends add_last_step :
  Forall (λ i, opcode i ∉ hasname) code →
  collect_tokens lasti code extends add_last_step = (extends, add_last_step).
Proof.
  induction 1 as [|i code Hi _ IH]; [done|].
  cbn [collect_tokens]. destruct (bool_decide (offset i > lasti)); [done|].
  by rewrite (bool_decide_eq_true_2 _ Hi).
Qed.

(** The state of the first loop after a prefix it went through, seen from
    the state of the paths. *)
Lemma names_of_prefix lasti pre mid :
  Forall (in_range lasti) (pre ++ mid) →
  Forall (λ i, opcode i ∉ hasname) mid →
  (collect_tokens lasti pre [] true).2 = true →
  _get_base_class_names {| f_code := pre ++ mid; f_lasti := lasti |} =
    flush (path_state lasti pre).
Proof.
  intros [Hpre Hmid]%Forall_app Hskip Hflag.
  unfold _get_base_class_names, path_state, retained_tokens. cbn.
  rewrite collect_tokens_app by done.
  rewrite (collect_tokens_no_names _ mid) by done.
  destruct (collect_tokens lasti pre [] true) as [extends flag].
  cbn in *. by subst.
Qed.

(** An instruction whose opcode is not in [dis.hasname], such as a load of a
    local or of a free variable, changes neither the tokens nor the paths. *)
Lemma path_state_skipped lasti pre i :
  Forall (in_range lasti) (pre ++ [i]) → opcode i ∉ hasname →
  path_state lasti (pre ++ [i]) = path_state lasti pre.
Proof.
  intros [Hpre Hi%Forall_inv]%Forall_app Hskip.
  unfold path_state, retained_tokens.
  rewrite collect_tokens_app, collect_tokens_skipped by done.
  cbn [collect_tokens].
  by destruct (collect_tokens lasti pre [] true) as [extends flag].
Qed.

End ScannerFacts.

Section ScannerClaims.
Context `{Host}.

Implicit Types (i j : instruction) (pre mid post : list instruction).

(** C3 (as amended).  Among the instructions that the scanner handles (not
    past [f_lasti], opcode in [dis.hasname]), a [LOAD_NAME] or a
    [LOAD_GLOBAL] moves the open path, when it has a segment, to the
    completed paths and opens a new path whose first segment is the loaded
    identifier; a [LOAD_ATTR] adds the attribute name at the end of the open
    path and opens no path.  The paths before the instruction are those of
    the tokens still held at that point; a frame that stops at the
    instruction returns the paths after it, the open one last. *)
Theorem C3_loads_extend_paths lasti pre i :
  Forall (in_range lasti) (pre ++ [i]) →
  opcode i ∈ hasname →
  is_load i = true →
  path_state lasti (pre ++ [i]) =
    (if decide (opname i = "LOAD_ATTR")
     then ((path_state lasti pre).1,
           (path_state lasti pre).2 ++ [argval i])
     else (flush (path_state lasti pre), [argval i]))
  ∧ _get_base_class_names {| f_code := pre ++ [i]; f_lasti := lasti |} =
      flush (path_state lasti (pre ++ [i])).
Proof.
  intros Hr Hn Hload.
  pose proof Hr as [Hpre Hi%Forall_inv]%Forall_app.
  assert (Hflag : (collect_tokens lasti (pre ++ [i]) [] true).2 = true).
  { rewrite collect_tokens_app, collect_tokens_handled by done.
    cbn zeta. by rewrite Hload. }
  split.
  - unfold path_state, retained_tokens.
    rewrite collect_tokens_app, collect_tokens_handled by done.
    cbn zeta. rewrite Hload. cbn [collect_tokens].
    destruct (collect_tokens lasti pre [] true) as [extends flag]. cbn [fst snd].
    rewrite group_tokens_app.
    destruct (group_tokens (if flag then extends else []) [] [])
      as [items previous_item].
    cbn [fst snd]. destruct (decide (opname i = "LOAD_ATTR")); done.
  - rewrite <- (app_nil_r (pre ++ [i])) at 1.
    by apply names_of_prefix; [rewrite app_nil_r| |].
Qed.

(** C4 (as amended).  A handled instruction that is none of [LOAD_NAME],
    [LOAD_ATTR], [LOAD_GLOBAL] adds no segment and schedules the removal of
    every token held so far.  If the scan ends before another
    name-referencing instruction, the result holds all the paths gathered
    before it, completed and open alike; if another name-referencing
    instruction [j] is handled later, all of them are dropped first (the
    completed paths too), and the result is that of a scan that begins at
    [j]. *)
Theorem C4_other_instruction_drops_all lasti pre i mid j post :
  Forall (in_range lasti) (pre ++ i :: mid ++ [j]) →
  opcode i ∈ hasname →
  is_load i = false →
  Forall (λ k, opcode k ∉ hasname) mid →
  opcode j ∈ hasname →
  _get_base_class_names {| f_code := pre ++ i :: mid; f_lasti := lasti |} =
    flush (path_state lasti pre)
  ∧ path_state lasti (pre ++ i :: mid) = ([], [])
  ∧ _get_base_class_names
      {| f_code := pre ++ i :: mid ++ j :: post; f_lasti := lasti |} =
    _get_base_class_names {| f_code := j :: post; f_lasti := lasti |}.
Proof.
  intros Hr Hn Hload Hskip Hj.
  pose proof Hr as [Hpre Hrest]%Forall_app.
  pose proof Hrest as [Hi [Hmid Hjr%Forall_inv]%Forall_app]%Forall_cons.
  assert (Hstate : collect_tokens lasti (pre ++ i :: mid) [] true =
                   (retained_tokens lasti pre, false)).
  { rewrite collect_tokens_app, collect_tokens_handled by done.
    cbn zeta. rewrite Hload, collect_tokens_no_names by done.
    unfold retained_tokens.
    by destruct (collect_tokens lasti pre [] true) as [extends flag]. }
  split; [|split].
  - unfold _get_base_class_names, path_state. cbn [f_code f_lasti].
    by rewrite Hstate.
  - unfold path_state, retained_tokens. by rewrite Hstate.
  - unfold _get_base_class_names. cbn [f_code f_lasti].
    replace (pre ++ i :: mid ++ j :: post)
      with ((pre ++ i :: mid) ++ j :: post) by by rewrite <- app_assoc.
    rewrite collect_tokens_app, Hstate.
    + cbn [fst snd]. by rewrite collect_tokens_after_reset.
    + apply Forall_app. split; [done|]. by constructor.
Qed.

End ScannerClaims.

(** * Properties of the resolver *)

Section ResolverFacts.

Lemma follow_components_fold (obj : pyobj) (components : list string) :
  follow_components obj components = Ok (fold_left skip_or_follow components obj).
Proof.
  revert obj. induction components as [|component rest IH]; intros obj; [done|].
  cbn [follow_components fold_left]. unfold hasattr, skip_or_follow.
  destruct (py_getattr obj component) as [attr|e]; cbn; apply IH.
Qed.

(** C5.  When the first segment of a path is found (in the namespace, in a
    [dict] of builtins or on a builtins module), [_get_base_class] returns
    an object and raises nothing: it walks the other segments in order,
    takes the attribute where the object reached so far has it, and stays on
    that object where it has not. *)
Theorem C5_missing_attributes_are_skipped
    (components : list string) (namespace : gmap string pyobj) (obj : pyobj) :
  lookup_first components namespace = Ok obj →
  _get_base_class components namespace =
    Ok (fold_left skip_or_follow (tail components) obj).
Proof.
  intros Hfirst. unfold _get_base_class. rewrite Hfirst. cbn.
  apply follow_components_fold.
Qed.

Lemma lookup_first_index_error
    (components : list string) (namespace : gmap string pyobj) :
  components ≠ [] → lookup_first components namespace ≠ Raise IndexError.
Proof.
  intros Hne. destruct components as [|first rest]; [done|].
  unfold lookup_first, getitem, py_getattr, mbind, result_bind. cbn.
  repeat case_match; congruence.
Qed.

Lemma get_base_class_index_error
    (components : list string) (namespace : gmap string pyobj) :
  components ≠ [] → _get_base_class components namespace ≠ Raise IndexError.
Proof.
  intros Hne. unfold _get_base_class.
  pose proof (lookup_first_index_error components namespace Hne) as Hfirst.
  destruct (lookup_first components namespace) as [obj|e]; cbn.
  - by rewrite follow_components_fold.
  - congruence.
Qed.

End ResolverFacts.

Section PathClaims.
Context `{Host}.

(** C10.  Every path that [_get_base_class_names] returns has a segment, so
    that [components[0]] in [_get_base_class] never raises [IndexError] on
    it; and a frame without name-referencing instructions gives no path. *)
Theorem C10_paths_have_a_first_segment (frame : frame) :
  Forall (λ p, p ≠ []) (_get_base_class_names frame)
  ∧ Forall (λ p, ∀ namespace, _get_base_class p namespace ≠ Raise IndexError)
      (_get_base_class_names frame)
  ∧ (Forall (λ i, opcode i ∉ hasname) (f_code frame) →
       _get_base_class_names frame = []).
Proof.
  split; [apply names_nonempty|split].
  - eapply Forall_impl; [apply names_nonempty|].
    intros p Hp namespace. by apply get_base_class_index_error.
  - intros Hskip. unfold _get_base_class_names.
    by rewrite collect_tokens_no_names.
Qed.

End PathClaims.

(** * Properties of the decorator *)

Ltac run_steps :=
  unfold mbind, mret, run_bind, run_ret, result_bind, result_ret,
    lift, raise, get_method, update_method, emit; cbn.

Section DecoratorFacts.
Context `{Host}.

Implicit Types (st : state) (bases : list pyobj).

Lemma getattr_static_found (super_class : pyobj) (name : string) (found : pyobj) :
  py_getattr super_class name = Ok found →
  getattr_static_is_staticmethod super_class name = Ok (static_of super_class name).
Proof.
  unfold py_getattr, getattr_static_is_staticmethod, static_of.
  destruct (py_attrs super_class !! name) as [[value static]|]; [done|].
  by destruct (decide (name = "__doc__")).
Qed.

Lemma getattr_doc (obj : pyobj) : py_getattr obj "__doc__" = Ok (docstring obj).
Proof.
  unfold py_getattr, docstring.
  by destruct (py_attrs obj !! "__doc__") as [[doc static]|].
Qed.

(** [_validate_method] on a base class that has the attribute. *)
Lemma validate_method_found super_class check_signature st super_method :
  py_getattr super_class (__name__ (the_method st)) = Ok super_method →
  _validate_method super_class check_signature st =
    if is_final super_method then
      (Raise (TypeError (Finalized (__name__ (the_method st)) super_class)), st)
    else
      let st' := documented super_method st in
      let is_static := static_of super_class (__name__ (the_method st)) in
      if signature_checked check_signature (__name__ (the_method st)) super_method
      then
        (match ensure_signature_is_compatible super_method (the_method st') is_static with
         | None => Ok tt
         | Some msg => Raise (TypeError (Incompatible msg))
         end,
         {| the_method := the_method st';
            events := events st'
                      ++ [SignatureChecked super_method (the_method st') is_static] |})
      else (Ok tt, st').
Proof.
  intros Hfound. unfold _validate_method, check_signature_call.
  run_steps. rewrite Hfound. cbn.
  rewrite (getattr_static_found _ _ _ Hfound). cbn.
  destruct (is_final super_method); [done|].
  unfold documented, signature_checked.
  destruct (py_truth (__doc__ (the_method st))); cbn.
  - destruct (check_signature && negb (String.prefix "__" (__name__ (the_method st)))
              && negb (isinstance super_method TProperty)); [|done].
    by destruct (ensure_signature_is_compatible _ _ _).
  - rewrite getattr_doc. cbn.
    destruct (check_signature && negb (String.prefix "__" (__name__ (the_method st)))
              && negb (isinstance super_method TProperty)); [|done].
    by destruct (ensure_signature_is_compatible _ _ _).
Qed.

Lemma hasattr_getattr (obj : pyobj) (name : string) :
  hasattr obj name = true → ∃ found, py_getattr obj name = Ok found.
Proof.
  unfold hasattr. destruct (py_getattr obj name) as [found|e]; [eauto|done].
Qed.

Lemma override_target_none bases (name : string) :
  override_target bases name = None ↔
  Forall (λ super_class, hasattr super_class name = false) bases.
Proof.
  unfold override_target. induction bases as [|super_class rest IH]; cbn.
  - split; [constructor|done].
  - destruct (hasattr super_class name) eqn:Hhas.
    + split; [done|]. intros Hall%Forall_inv. congruence.
    + rewrite IH. split; [by constructor|]. by intros ?%Forall_inv_tail.
Qed.

Lemma override_target_has bases (name : string) (super_class : pyobj) :
  override_target bases name = Some super_class → hasattr super_class name = true.
Proof. unfold override_target. by intros [_ ?]%find_some. Qed.

(** The [for] loop stops at the override target. *)
Lemma first_super_class_found bases check_signature check_at_runtime st super_class :
  override_target bases (__name__ (the_method st)) = Some super_class →
  first_super_class bases check_signature check_at_runtime st =
    if check_at_runtime then (Ok (Wrapper super_class check_signature), st)
    else (_validate_method super_class check_signature;; mret TheMethod) st.
Proof.
  unfold override_target.
  induction bases as [|candidate rest IH]; [done|].
  cbn [List.find first_super_class]. run_steps.
  destruct (hasattr candidate (__name__ (the_method st))); [|exact IH].
  intros [= ->]. by destruct check_at_runtime.
Qed.

Lemma first_super_class_none bases check_signature check_at_runtime st :
  override_target bases (__name__ (the_method st)) = None →
  first_super_class bases check_signature check_at_runtime st =
    (Raise (TypeError (NoSuperClassMethod (__qualname__ (the_method st)))), st).
Proof.
  unfold override_target.
  induction bases as [|candidate rest IH]; [done|].
  cbn [List.find first_super_class]. run_steps.
  by destruct (hasattr candidate (__name__ (the_method st))).
Qed.

(** [_overrides] is the loop run on the marked method, when the base classes
    resolve, and the exception of the resolution otherwise. *)
Lemma overrides_unfold env check_signature check_at_runtime st :
  _overrides env check_signature check_at_runtime st =
    match resolved_base_classes env (the_method st) with
    | Ok bases =>
        first_super_class bases check_signature check_at_runtime (marked st)
    | Raise e => (Raise e, marked st)
    end.
Proof.
  unfold _overrides, mbind, run_bind, update_method, get_method, lift.
  cbn -[resolved_base_classes first_super_class].
  change (resolved_base_classes env (set_override True_ (the_method st)))
    with (resolved_base_classes env (the_method st)).
  by destruct (resolved_base_classes env (the_method st)).
Qed.

(** A call of the wrapper: the validation against the live class, then the
    method, which runs only when the validation returned. *)
Lemma call_wrapper now super_class check_signature args st :
  call now (Wrapper super_class check_signature) args st =
    match _validate_method (now super_class) check_signature st with
    | (Ok _, st') =>
        (method_body (the_method st') args,
         {| the_method := the_method st';
            events := events st' ++ [MethodCalled (the_method st') args] |})
    | (Raise e, st') => (Raise e, st')
    end.
Proof.
  unfold call, call_method. run_steps.
  by destruct (_validate_method (now super_class) check_signature st)
    as [[[]|e] st'].
Qed.


End DecoratorFacts.

Section ResolutionErrors.
Context `{Host}.

(** Resolving the base classes raises [KeyError], [AttributeError],
    [IndexError] or [ValueError], never a [TypeError]. *)
Lemma get_base_class_no_type_error
    (components : list string) (namespace : gmap string pyobj) why :
  _get_base_class components namespace ≠ Raise (TypeError why).
Proof.
  unfold _get_base_class.
  destruct (lookup_first components namespace) as [obj|e] eqn:Hfirst; cbn.
  - by rewrite follow_components_fold.
  - intros [= ->]. revert Hfirst.
    unfold lookup_first, getitem, py_getattr, mbind, result_bind.
    destruct components; cbn; repeat case_match; congruence.
Qed.

Lemma mapM_no_type_error {A B : Type} (f : A → result B) (l : list A) why :
  (∀ x, f x ≠ Raise (TypeError why)) → mapM f l ≠ Raise (TypeError why).
Proof.
  intros Hf. induction l as [|x l IH]; [done|].
  cbn. unfold mbind, result_bind.
  specialize (Hf x). destruct (f x) as [y|e]; [|congruence].
  destruct (mapM f l) as [k|e]; [done|congruence].
Qed.

Lemma resolved_base_classes_no_type_error env (method : method) why :
  resolved_base_classes env method ≠ Raise (TypeError why).
Proof.
  unfold resolved_base_classes, module_vars, sys_getframe, mbind, result_bind.
  destruct (__globals__ method) as [global_vars|];
    [|destruct (sys_modules env !! __module__ method) as [global_vars|]];
    try done;
    (destruct (call_stack env !! 3%nat) as [frame|]; [|done];
     apply mapM_no_type_error; intros p; apply get_base_class_no_type_error).
Qed.

End ResolutionErrors.

Section DecoratorClaims.
Context `{Host}.

Implicit Types (st : state) (bases : list pyobj).

(** C1.  [_overrides] raises the error "No super class method found" (line
    117) exactly when the base classes resolve and none of them has an
    attribute named like the method, the empty list included; the error
    carries the qualified name of the method.  This holds for both values of
    [check_signature] and of [check_at_runtime]. *)
Theorem C1_no_super_class_method env check_signature check_at_runtime st qualname :
  (_overrides env check_signature check_at_runtime st).1 =
    Raise (TypeError (NoSuperClassMethod qualname))
  ↔ ∃ bases,
      resolved_base_classes env (the_method st) = Ok bases
      ∧ Forall (λ super_class,
                  hasattr super_class (__name__ (the_method st)) = false) bases
      ∧ qualname = __qualname__ (the_method st).
Proof.
  rewrite overrides_unfold.
  destruct (resolved_base_classes env (the_method st)) as [bases|e] eqn:Hbases.
  - destruct (override_target bases (__name__ (the_method st)))
      as [super_class|] eqn:Htarget.
    + split.
      * intros Hraise. exfalso. revert Hraise.
        rewrite (first_super_class_found _ _ _ _ super_class) by exact Htarget.
        destruct check_at_runtime; [done|].
        pose proof (override_target_has _ _ _ Htarget) as Hhas.
        apply hasattr_getattr in Hhas as [super_method Hget].
        unfold mbind, run_bind.
        rewrite (validate_method_found _ _ _ super_method) by exact Hget.
        destruct (is_final super_method); [done|]. cbn zeta.
        destruct (signature_checked _ _ _); [|done].
        by destruct (ensure_signature_is_compatible _ _ _).
      * intros (bases' & [= <-] & Hnone & _).
        apply override_target_none in Hnone. congruence.
    + rewrite first_super_class_none by exact Htarget. cbn. split.
      * intros [= <-]. exists bases.
        by rewrite <- override_target_none.
      * by intros (_ & _ & _ & ->).
  - cbn. split.
    + intros [= ->]. by apply resolved_base_classes_no_type_error in Hbases.
    + by intros (bases & ? & _).
Qed.


(** C6.  With an override target found: when [check_at_runtime] is true,
    [_overrides] only marks the method and returns the wrapper (no
    validation: no exception, docstring and trace untouched), and each call
    of the wrapper runs [_validate_method] against the class as it is then
    and, only when that did not raise, calls the method with the arguments
    of the call and returns what the method returns; when
    [check_at_runtime] is false, [_overrides] runs [_validate_method] on the
    marked method and, when that did not raise, returns the method object
    itself. *)
Theorem C6_validate_now_or_at_each_call env check_signature bases st super_class :
  resolved_base_classes env (the_method st) = Ok bases →
  override_target bases (__name__ (the_method st)) = Some super_class →
  _overrides env check_signature true st =
    (Ok (Wrapper super_class check_signature), marked st)
  ∧ (∀ now args st',
       call now (Wrapper super_class check_signature) args st' =
         match _validate_method (now super_class) check_signature st' with
         | (Ok _, st'') =>
             (method_body (the_method st'') args,
              {| the_method := the_method st'';
                 events := events st''
                           ++ [MethodCalled (the_method st'') args] |})
         | (Raise e, st'') => (Raise e, st'')
         end)
  ∧ _overrides env check_signature false st =
      match _validate_method super_class check_signature (marked st) with
      | (Ok _, st') => (Ok TheMethod, st')
      | (Raise e, st') => (Raise e, st')
      end.
Proof.
  intros Hbases Htarget. split; [|split].
  - rewrite overrides_unfold, Hbases.
    by rewrite (first_super_class_found _ _ _ _ super_class).
  - intros now args st'. apply call_wrapper.
  - rewrite overrides_unfold, Hbases.
    by rewrite (first_super_class_found _ _ _ _ super_class).
Qed.





Lemma validate_method_keeps_marker super_class check_signature st :
  hasattr super_class (__name__ (the_method st)) = true →
  __override__ (the_method (_validate_method super_class check_signature st).2) =
    __override__ (the_method st).
Proof.
  intros [super_method Hget]%hasattr_getattr.
  rewrite (validate_method_found _ _ _ super_method) by exact Hget.
  destruct (is_final super_method); [done|]. cbn zeta.
  destruct (signature_checked _ _ _); cbn;
    unfold documented; by destruct (py_truth (__doc__ (the_method st))).
Qed.

(** C9.  Line 100 runs first and nothing undoes it: whatever [_overrides]
    does next, return or raise, the method ends with [__override__] set to
    [True].  When it raises the error of the signature checker, the method
    whose docstring was missing also keeps the docstring copied from the
    target. *)
Theorem C9_marker_survives_failure env check_signature check_at_runtime st :
  __override__ (the_method (_overrides env check_signature check_at_runtime st).2) =
    Some True_
  ∧ (∀ bases super_class super_method msg,
       resolved_base_classes env (the_method st) = Ok bases →
       override_target bases (__name__ (the_method st)) = Some super_class →
       py_getattr super_class (__name__ (the_method st)) = Ok super_method →
       (_overrides env check_signature check_at_runtime st).1 =
         Raise (TypeError (Incompatible msg)) →
       py_truth (__doc__ (the_method st)) = false →
       __doc__ (the_method (_overrides env check_signature check_at_runtime st).2) =
         docstring super_method).
Proof.
  split.
  - rewrite overrides_unfold.
    destruct (resolved_base_classes env (the_method st)) as [bases|e]; [|done].
    destruct (override_target bases (__name__ (the_method st)))
      as [super_class|] eqn:Htarget.
    + rewrite (first_super_class_found _ _ _ _ super_class) by exact Htarget.
      destruct check_at_runtime; [done|].
      pose proof (validate_method_keeps_marker super_class check_signature
                    (marked st) (override_target_has _ _ _ Htarget)) as Hkeep.
      unfold mbind, run_bind.
      destruct (_validate_method super_class check_signature (marked st))
        as [[[]|e] st']; exact Hkeep.
    + by rewrite first_super_class_none.
  - intros bases super_class super_method msg Hbases Htarget Hget Hraise Hdoc.
    revert Hraise. rewrite overrides_unfold, Hbases.
    rewrite (first_super_class_found _ _ _ _ super_class) by exact Htarget.
    destruct check_at_runtime; [done|].
    unfold mbind, run_bind.
    rewrite (validate_method_found _ _ _ super_method) by exact Hget.
    destruct (is_final super_method); [done|]. cbn zeta.
    destruct (signature_checked _ _ _); [|done].
    destruct (ensure_signature_is_compatible _ _ _); [|done].
    intros _. cbn. unfold documented. cbn. by rewrite Hdoc.
Qed.

End DecoratorClaims.

(** * The properties on the sample data *)

Ltac by_compute := apply (bool_decide_unpack _); vm_compute; exact I.

Ltac all_in_range :=
  repeat first
    [ apply List.Forall_nil
    | apply List.Forall_cons; [unfold in_range; cbn; lia|] ].

Ltac none_has_name :=
  repeat first [ apply List.Forall_nil | apply List.Forall_cons; [by_compute|] ].

Section Samples.
Import Py38.

(** [Base] has no attribute [other]; decoration of [other] in
    [class Sub(pkg.Base)] raises the error of line 117. *)
Lemma C1_witness :
  resolved_base_classes (H := lenient) (stack_on class_statement) other = Ok [Base]
  ∧ hasattr Base "other" = false
  ∧ (_overrides (H := lenient) (stack_on class_statement) true false (start other)).1 =
      Raise (TypeError (NoSuperClassMethod "Sub.other")).
Proof.
  assert (Hbases : resolved_base_classes (H := lenient)
                     (stack_on class_statement) other = Ok [Base])
    by (vm_compute; reflexivity).
  assert (Hnone : hasattr Base "other" = false) by (vm_compute; reflexivity).
  split; [exact Hbases|split; [exact Hnone|]].
  apply (proj2 (C1_no_super_class_method (H := lenient)
                  (stack_on class_statement) true false (start other) "Sub.other")).
  exists [Base]. split; [exact Hbases|split; [|reflexivity]].
  apply List.Forall_cons; [exact Hnone|apply List.Forall_nil].
Defined.


(** [LOAD_ATTR Base] after [LOAD_NAME pkg] in [class Sub(pkg.Base)]. *)
Lemma C3_witness :
  path_state (H := lenient) 14 up_to_pkg = ([], ["pkg"])
  ∧ path_state (H := lenient) 14 (up_to_pkg ++ [LOAD_ATTR "Base" 12]) =
      ([], ["pkg"; "Base"])
  ∧ _get_base_class_names (H := lenient)
      {| f_code := up_to_pkg ++ [LOAD_ATTR "Base" 12]; f_lasti := 14 |} =
      [["pkg"; "Base"]].
Proof.
  pose proof (C3_loads_extend_paths (H := lenient) 14 up_to_pkg
                (LOAD_ATTR "Base" 12)
                ltac:(all_in_range) ltac:(by_compute) eq_refl) as [Hstate Hnames].
  split; [vm_compute; reflexivity|split].
  - rewrite Hstate. vm_compute. reflexivity.
  - rewrite Hnames, Hstate. vm_compute. reflexivity.
Defined.

(** C3, the claim as written: a load of a free variable ([LOAD_DEREF]) is a
    load of a bare identifier, yet it opens no path; the scanner skips it and
    [class Sub(Base)] gets no base-class name. *)
Lemma C3_counterexample :
  spec_identifier_load (LOAD_DEREF "Base" 10) = true
  ∧ path_state (H := lenient) 12 (take 5 (f_code class_with_free_base)) = ([], [])
  ∧ path_state (H := lenient) 12 (take 6 (f_code class_with_free_base)) = ([], [])
  ∧ _get_base_class_names (H := lenient) class_with_free_base = [].
Proof. repeat split; vm_compute; reflexivity. Defined.

(** [x = (A, B)] then [class Sub(C)]: the paths of the first statement are
    in the result of a scan that stops after [STORE_NAME x], and gone when
    [LOAD_NAME C] has been handled. *)
Lemma C4_witness :
  _get_base_class_names (H := lenient)
    {| f_code := tuple_built ++ STORE_NAME "x" 6 :: class_opened; f_lasti := 20 |} =
    [["A"]; ["B"]]
  ∧ path_state (H := lenient) 20 (tuple_built ++ STORE_NAME "x" 6 :: class_opened) =
      ([], [])
  ∧ _get_base_class_names (H := lenient) two_statements = [["C"]].
Proof.
  pose proof (C4_other_instruction_drops_all (H := lenient) 20 tuple_built
                (STORE_NAME "x" 6) class_opened
                (LOAD_NAME "C" 18) [CALL_FUNCTION "" 20]
                ltac:(all_in_range) ltac:(by_compute) eq_refl
                ltac:(none_has_name) ltac:(by_compute)) as (Hlast & Hstate & Hnext).
  split; [|split].
  - rewrite Hlast. vm_compute. reflexivity.
  - exact Hstate.
  - change two_statements
      with {| f_code := tuple_built ++ STORE_NAME "x" 6 :: class_opened
                        ++ LOAD_NAME "C" 18 :: [CALL_FUNCTION "" 20];
              f_lasti := 20 |}.
    rewrite Hnext. vm_compute. reflexivity.
Defined.

(** C4, the claim as written: the path [A] is completed when [LOAD_NAME B]
    arrives, [STORE_NAME x] is a name-referencing instruction that is not a
    load, and yet [A] is not in the result. *)
Lemma C4_counterexample :
  path_state (H := lenient) 20 (take 2 (f_code two_statements)) = ([["A"]], ["B"])
  ∧ (f_code two_statements !! 3%nat = Some (STORE_NAME "x" 6)
     ∧ bool_decide (opcode (STORE_NAME "x" 6) ∈ names_3_8) = true
     ∧ is_load (STORE_NAME "x" 6) = false)
  ∧ _get_base_class_names (H := lenient) two_statements = [["C"]].
Proof. repeat split; vm_compute; reflexivity. Defined.

(** [pkg.missing.Base]: [pkg] has no attribute [missing], and the path
    resolves to [pkg.Base]. *)
Lemma C5_witness :
  lookup_first ["pkg"; "missing"; "Base"] globals = Ok pkg
  ∧ hasattr pkg "missing" = false
  ∧ _get_base_class ["pkg"; "missing"; "Base"] globals = Ok Base.
Proof.
  split; [vm_compute; reflexivity|split; [vm_compute; reflexivity|]].
  rewrite (C5_missing_attributes_are_skipped
             ["pkg"; "missing"; "Base"] globals pkg ltac:(vm_compute; reflexivity)).
  vm_compute. reflexivity.
Defined.

(** [class Sub(pkg.Base)], method [m]: with [check_at_runtime] decoration
    returns the wrapper; a call with one argument validates, calls the
    method with it and returns what the method returns; once [Base.m] has
    been sealed the same call raises and the method is not called; without
    [check_at_runtime] decoration returns the method itself. *)
Lemma C6_witness :
  _overrides (H := echo) (stack_on class_statement) true true (start m) =
    (Ok (Wrapper Base true), marked (start m))
  ∧ (call (H := echo) id (Wrapper Base true) [str_ "x"] (marked (start m))).1 =
      Ok (str_ "x")
  ∧ events (call (H := echo) id (Wrapper Base true) [str_ "x"]
              (marked (start m))).2 =
      [SignatureChecked base_m
         (set_doc (str_ "Base documentation") (set_override True_ m)) false;
       MethodCalled
         (set_doc (str_ "Base documentation") (set_override True_ m))
         [str_ "x"]]
  ∧ call (H := echo) sealed_later (Wrapper Base true) [str_ "x"]
      (marked (start m)) =
      (Raise (TypeError (Finalized "m" Base_sealed)), marked (start m))
  ∧ (_overrides (H := echo) (stack_on class_statement) true false (start m)).1 =
      Ok TheMethod.
Proof.
  pose proof (C6_validate_now_or_at_each_call (H := echo)
                (stack_on class_statement) true [Base] (start m) Base
                ltac:(vm_compute; reflexivity) ltac:(vm_compute; reflexivity))
    as (Hwrap & Hcall & Hnow).
  split; [exact Hwrap|split; [|split; [|split]]].
  - rewrite Hcall. vm_compute. reflexivity.
  - rewrite Hcall. vm_compute. reflexivity.
  - rewrite Hcall. vm_compute. reflexivity.
  - rewrite Hnow. vm_compute. reflexivity.
Defined.





(** Decoration of [m] fails in the signature checker; [m] is marked and has
    the docstring of [Base.m]. *)
Lemma C9_witness :
  (_overrides (H := strict) (stack_on class_statement) true false (start m)).1 =
    Raise (TypeError (Incompatible "m: not compatible"))
  ∧ __override__ (the_method
      (_overrides (H := strict) (stack_on class_statement) true false (start m)).2) =
      Some True_
  ∧ __doc__ (the_method
      (_overrides (H := strict) (stack_on class_statement) true false (start m)).2) =
      str_ "Base documentation".
Proof.
  pose proof (C9_marker_survives_failure (H := strict)
                (stack_on class_statement) true false (start m)) as [Hmark Hdoc].
  assert (Hraise : (_overrides (H := strict) (stack_on class_statement)
                      true false (start m)).1 =
                   Raise (TypeError (Incompatible "m: not compatible")))
    by (vm_compute; reflexivity).
  split; [exact Hraise|split; [exact Hmark|]].
  rewrite (Hdoc [Base] Base base_m "m: not compatible"
             ltac:(vm_compute; reflexivity) ltac:(vm_compute; reflexivity)
             ltac:(vm_compute; reflexivity) Hraise eq_refl).
  vm_compute. reflexivity.
Defined.

(** A frame without name-referencing instructions, and the paths of
    [class Sub(pkg.Base)]. *)
Lemma C10_witness :
  _get_base_class_names (H := lenient) no_names = []
  ∧ Forall (λ p, p ≠ []) (_get_base_class_names (H := lenient) class_statement).
Proof.
  split.
  - apply (proj2 (proj2 (C10_paths_have_a_first_segment (H := lenient) no_names))).
    cbn. none_has_name.
  - apply (proj1 (C10_paths_have_a_first_segment (H := lenient) class_statement)).
Defined.

(** [class Sub:] as the first statement: no base class, hence no target. *)
Example no_base_class_no_target :
  resolved_base_classes (H := lenient) (stack_on bare_statement) m = Ok []
  ∧ (_overrides (H := lenient) (stack_on bare_statement) true true (start m)).1 =
      Raise (TypeError (NoSuperClassMethod "Sub.m")).
Proof. split; vm_compute; reflexivity. Qed.

(** [class Sub(base.Inner)] with [base] a local variable: [LOAD_FAST] is
    skipped and [LOAD_ATTR] extends an open path that has no segment yet. *)
Example attribute_of_a_local :
  _get_base_class_names (H := lenient)
    {| f_code := [LOAD_FAST "base" 0; LOAD_ATTR "Inner" 2]; f_lasti := 2 |} =
    [["Inner"]].
Proof. vm_compute. reflexivity. Qed.

(** A global base class, and the builtins behind the globals. *)
Example global_base_and_builtins :
  _get_base_class_names (H := lenient)
    {| f_code := [LOAD_GLOBAL "object" 0]; f_lasti := 0 |} = [["object"]]
  ∧ succeeds (_get_base_class ["object"] globals) = true
  ∧ _get_base_class ["nothing"] globals = Raise (KeyError "nothing").
Proof. repeat split; vm_compute; reflexivity. Qed.

End Samples.

(** * Further properties of the scanner *)

Section ScannerMore.
Context `{Host}.

Implicit Types (i k : instruction) (pre post code rest : list instruction).
Implicit Types (extends : list token) (items paths : list (list string)).

Lemma collect_tokens_stop lasti pre k post extends add_last_step :
  offset k > lasti →
  collect_tokens lasti (pre ++ k :: post) extends add_last_step =
    collect_tokens lasti pre extends add_last_step.
Proof.
  intros Hk. revert extends add_last_step.
  induction pre as [|i pre IH]; intros extends add_last_step.
  - cbn. by rewrite (bool_decide_eq_true_2 _ Hk).
  - cbn [app collect_tokens].
    destruct (bool_decide (offset i > lasti)); [done|].
    destruct (bool_decide (opcode i ∉ hasname)); [apply IH|].
    cbn zeta. repeat case_decide; apply IH.
Qed.

(** The scan stops at the first instruction past [f_lasti]: that
    instruction and all that follow it have no effect on the result. *)
Theorem names_stop_past_lasti lasti pre k post :
  offset k > lasti →
  _get_base_class_names {| f_code := pre ++ k :: post; f_lasti := lasti |} =
    _get_base_class_names {| f_code := pre; f_lasti := lasti |}.
Proof.
  intros Hk. unfold _get_base_class_names. cbn [f_code f_lasti].
  by rewrite collect_tokens_stop.
Qed.

Lemma collect_tokens_filter lasti code extends add_last_step :
  Forall (in_range lasti) code →
  collect_tokens lasti (filter (λ i, opcode i ∈ hasname) code)
    extends add_last_step =
    collect_tokens lasti code extends add_last_step.
Proof.
  intros Hcode. revert extends add_last_step.
  induction Hcode as [|i code Hi _ IH]; intros extends add_last_step; [done|].
  destruct (decide (opcode i ∈ hasname)) as [Hn|Hn].
  - rewrite filter_cons_True by done.
    rewrite !(collect_tokens_handled _ _ _ _ _ Hi Hn). cbn zeta.
    destruct (is_load i); apply IH.
  - rewrite filter_cons_False by done.
    rewrite (collect_tokens_skipped _ _ _ _ _ Hi Hn). apply IH.
Qed.

(** Only the instructions with a name operand count: a frame and the frame
    left when all other instructions are taken out of the part that was
    executed give the same paths. *)
Theorem names_depend_on_name_instructions lasti code :
  Forall (in_range lasti) code →
  _get_base_class_names
    {| f_code := filter (λ i, opcode i ∈ hasname) code; f_lasti := lasti |} =
    _get_base_class_names {| f_code := code; f_lasti := lasti |}.
Proof.
  intros Hcode. unfold _get_base_class_names. cbn [f_code f_lasti].
  by rewrite collect_tokens_filter.
Qed.

(** Every token comes from a handled load of the code, or was there
    before. *)
Lemma collect_tokens_origin lasti code extends add_last_step (t : token) :
  t ∈ (collect_tokens lasti code extends add_last_step).1 →
  t ∈ extends
  ∨ ∃ i, i ∈ code ∧ handled_load lasti i ∧ t.2 = argval i.
Proof.
  revert extends add_last_step.
  induction code as [|i code IH]; intros extends add_last_step; [by left|].
  cbn [collect_tokens].
  destruct (bool_decide (offset i > lasti)) eqn:Hoff; [by left|].
  apply bool_decide_eq_false in Hoff.
  assert (Hi : in_range lasti i) by (unfold in_range; lia).
  assert (Hlater : ∀ e f,
    t ∈ (collect_tokens lasti code e f).1 →
    (∀ u, u ∈ e → u ∈ extends ∨ (is_load i = true ∧ opcode i ∈ hasname
                                  ∧ u.2 = argval i)) →
    t ∈ extends ∨ ∃ j, j ∈ i :: code ∧ handled_load lasti j ∧ t.2 = argval j).
  { intros e f Ht He. destruct (IH _ _ Ht) as [Hin|(j & Hj & Hload & Harg)].
    - destruct (He _ Hin) as [?|(Hl & Hn & Harg)]; [by left|].
      right. exists i. split; [left|done].
    - right. exists j. split; [by right|done]. }
  destruct (bool_decide (opcode i ∉ hasname)) eqn:Hn.
  { intros Ht. apply (Hlater _ _ Ht). by left. }
  apply bool_decide_eq_false in Hn.
  assert (Hin : opcode i ∈ hasname) by (destruct (decide (opcode i ∈ hasname)); tauto).
  assert (Hkept : ∀ u, u ∈ (if add_last_step then extends else []) → u ∈ extends).
  { intros u. destruct add_last_step; [done|]. by intros ?%elem_of_nil. }
  cbn zeta. unfold is_load in Hlater.
  repeat case_decide; intros Ht; apply (Hlater _ _ Ht); intros u Hu;
    try (apply elem_of_app in Hu as [Hu|Hu%list_elem_of_singleton];
         [left; by apply Hkept|right; subst u;
          repeat split; try done;
          repeat (rewrite bool_decide_eq_true_2 by done
                  || rewrite bool_decide_eq_false_2 by done); done]);
    left; by apply Hkept.
Qed.

Lemma group_tokens_origin (ts : list token) items previous_item (p : list string) (s : string) :
  p ∈ flush (group_tokens ts items previous_item) → s ∈ p →
  (∃ q, q ∈ items ∧ s ∈ q) ∨ s ∈ previous_item ∨ ∃ t, t ∈ ts ∧ t.2 = s.
Proof.
  revert items previous_item.
  induction ts as [|[tag name] ts IH]; intros items previous_item Hp Hs.
  - unfold flush in Hp. cbn in Hp.
    destruct previous_item as [|x previous_item]; cbn in Hp.
    + left. by exists p.
    + apply elem_of_app in Hp as [Hp|Hp%list_elem_of_singleton].
      * left. by exists p.
      * right. left. by subst p.
  - cbn [group_tokens] in Hp. destruct (decide (tag = "name")).
    + destruct (IH _ _ Hp Hs) as [(q & Hq & Hsq)|[Hin|(t & Ht & Hts)]].
      * destruct previous_item as [|x previous_item]; cbn in Hq.
        { left. by exists q. }
        apply elem_of_app in Hq as [Hq|Hq%list_elem_of_singleton].
        { left. by exists q. }
        right. left. by subst q.
      * apply list_elem_of_singleton in Hin. subst s.
        right. right. exists (tag, name). split; [left|done].
      * right. right. exists t. split; [by right|done].
    + destruct (IH _ _ Hp Hs) as [?|[Hin|(t & Ht & Hts)]]; [by left| |].
      * apply elem_of_app in Hin as [Hin|Hin%list_elem_of_singleton].
        { right. by left. }
        subst s. right. right. exists (tag, name). split; [left|done].
      * right. right. exists t. split; [by right|done].
Qed.

(** The scanner invents no name: every segment of every path it returns is
    the operand of a [LOAD_NAME], [LOAD_ATTR] or [LOAD_GLOBAL] of the frame
    that is in [dis.hasname] and not past [f_lasti]. *)
Theorem segments_come_from_loads (frame : frame) (p : list string) (s : string) :
  p ∈ _get_base_class_names frame → s ∈ p →
  ∃ i, i ∈ f_code frame ∧ handled_load (f_lasti frame) i ∧ argval i = s.
Proof.
  intros Hp Hs. unfold _get_base_class_names in Hp.
  destruct (group_tokens_origin _ _ _ _ _ Hp Hs)
    as [(q & Hq & _)|[Hin|(t & Ht & Hts)]].
  - by apply elem_of_nil in Hq.
  - by apply elem_of_nil in Hin.
  - destruct (collect_tokens_origin _ _ _ _ _ Ht) as [Hin|(i & Hi & Hload & Harg)].
    + by apply elem_of_nil in Hin.
    + exists i. split; [done|split; [done|congruence]].
Qed.

End ScannerMore.

Section RoundTrip.
Context `{Host}.

Implicit Types (code rest : list instruction) (paths items : list (list string)).

Lemma collect_tokens_loads lasti code (extends : list token) :
  Forall (handled_load lasti) code →
  collect_tokens lasti code extends true = (extends ++ map token_of code, true).
Proof.
  intros Hcode. revert extends.
  induction Hcode as [|i code (Hi & Hn & Hload) _ IH]; intros extends.
  - cbn. by rewrite app_nil_r.
  - rewrite (collect_tokens_handled _ _ _ _ _ Hi Hn). cbn zeta.
    rewrite Hload, IH. cbn [map]. by rewrite <- app_assoc.
Qed.

Lemma group_tokens_attrs (l : list string) items (previous_item : list string) :
  group_tokens (map (λ s, ("attr", s)) l) items previous_item =
    (items, previous_item ++ l).
Proof.
  revert previous_item.
  induction l as [|s l IH]; intros previous_item; cbn.
  - by rewrite app_nil_r.
  - rewrite IH. by rewrite <- app_assoc.
Qed.

Lemma group_tokens_path (p : list string) items (previous_item : list string) :
  p ≠ [] →
  group_tokens (path_tokens p) items previous_item =
    (flush (items, previous_item), p).
Proof.
  destruct p as [|first rest]; [done|]. intros _.
  cbn [path_tokens group_tokens]. rewrite decide_True by done.
  by rewrite group_tokens_attrs.
Qed.

Lemma group_tokens_paths paths items (previous_item : list string) :
  Forall (λ p, p ≠ []) paths →
  flush (group_tokens (concat (map path_tokens paths)) items previous_item) =
    flush (items, previous_item) ++ paths.
Proof.
  intros Hpaths. revert items previous_item.
  induction Hpaths as [|p paths Hp _ IH]; intros items previous_item.
  - cbn. by rewrite app_nil_r.
  - cbn [map concat]. rewrite group_tokens_app, group_tokens_path by done.
    cbn [fst snd]. rewrite IH. unfold flush at 1. cbn [fst snd].
    destruct p as [|first rest]; [done|]. cbn [nonempty].
    by rewrite <- app_assoc.
Qed.

(** Round trip.  When the executed code is the loads that evaluate the
    dotted names [paths] one after the other (a [LOAD_NAME] or
    [LOAD_GLOBAL] for the first segment, a [LOAD_ATTR] for each further
    one), with only instructions without a name operand before and after
    them, the scanner returns exactly [paths], in this order. *)
Theorem loads_are_read_back lasti head code rest paths :
  Forall (in_range lasti) (head ++ rest) →
  Forall (λ i, opcode i ∉ hasname) (head ++ rest) →
  Forall (handled_load lasti) code →
  map token_of code = concat (map path_tokens paths) →
  Forall (λ p, p ≠ []) paths →
  _get_base_class_names {| f_code := head ++ code ++ rest; f_lasti := lasti |} =
    paths.
Proof.
  intros [Hhead Hrest]%Forall_app [Hskip1 Hskip2]%Forall_app Hcode Htokens Hpaths.
  unfold _get_base_class_names. cbn [f_code f_lasti].
  rewrite collect_tokens_skip_all by done.
  rewrite collect_tokens_app.
  - rewrite collect_tokens_loads by done. cbn [fst snd].
    rewrite collect_tokens_no_names by done. cbn [fst app].
    rewrite Htokens. by rewrite group_tokens_paths.
  - eapply Forall_impl; [exact Hcode|]. by intros i (? & _).
Qed.

End RoundTrip.

(** * Further properties of the resolver *)

Section ResolverMore.
Context `{Host}.

Implicit Types (p q : list string) (namespace : gmap string pyobj).

(** [_get_base_class] fails exactly when the first segment is bound neither
    in the namespace nor in its builtins; the exception is the [KeyError] of
    ["__builtins__"] when the namespace has no such entry, the [KeyError] of
    the segment when the builtins are a [dict], and the [AttributeError] of
    the segment when they are an object.  The other segments never make it
    fail. *)
Theorem get_base_class_failure (first : string) (rest : list string) namespace e :
  _get_base_class (first :: rest) namespace = Raise e ↔
    namespace !! first = None
    ∧ match namespace !! "__builtins__" with
      | None => e = KeyError "__builtins__"
      | Some b =>
          if isinstance b TDict
          then py_items b !! first = None ∧ e = KeyError first
          else py_attrs b !! first = None ∧ first ≠ "__doc__"
               ∧ e = AttributeError first
      end.
Proof.
  unfold _get_base_class, lookup_first, getitem, py_getattr, mbind, result_bind.
  cbn. destruct (namespace !! first) as [obj|].
  { rewrite follow_components_fold. split; [done|]. by intros [? _]. }
  destruct (namespace !! "__builtins__") as [b|]; cbn.
  2:{ split; [by intros [= <-]|]. by intros [_ ->]. }
  destruct (isinstance b TDict).
  - destruct (py_items b !! first) as [obj|].
    + rewrite follow_components_fold. split; [done|]. by intros (_ & ? & _).
    + split; [by intros [= <-]|]. by intros (_ & _ & ->).
  - destruct (py_attrs b !! first) as [[obj static]|].
    + rewrite follow_components_fold. split; [done|]. by intros (_ & ? & _).
    + destruct (decide (first = "__doc__")) as [Hdoc|Hdoc].
      * rewrite follow_components_fold. split; [done|]. by intros (_ & _ & ? & _).
      * split; [by intros [= <-]|]. by intros (_ & _ & _ & ->).
Qed.

Lemma get_base_class_app p q namespace (obj : pyobj) :
  p ≠ [] → _get_base_class p namespace = Ok obj →
  _get_base_class (p ++ q) namespace = Ok (fold_left skip_or_follow q obj).
Proof.
  intros Hp. destruct p as [|first rest]; [done|].
  unfold _get_base_class.
  change (lookup_first ((first :: rest) ++ q) namespace)
    with (lookup_first (first :: rest) namespace).
  destruct (lookup_first (first :: rest) namespace) as [start|e]; [|done].
  cbn. rewrite !follow_components_fold, fold_left_app. by intros [= ->].
Qed.

(** Paths compose: a path that resolves to [obj] can be continued, and the
    continuation is walked from [obj]; a segment that [obj] does not have can
    be dropped from the path (so a misspelt attribute resolves to its
    parent). *)
Theorem resolution_continues_from_prefix p q namespace (obj : pyobj) (s : string) :
  p ≠ [] →
  _get_base_class p namespace = Ok obj →
  hasattr obj s = false →
  _get_base_class (p ++ q) namespace = Ok (fold_left skip_or_follow q obj)
  ∧ _get_base_class (p ++ [s]) namespace = Ok obj
  ∧ _get_base_class (p ++ s :: q) namespace = _get_base_class (p ++ q) namespace.
Proof.
  intros Hp Hobj Hmissing.
  assert (Hskip : skip_or_follow obj s = obj).
  { unfold skip_or_follow. unfold hasattr in Hmissing.
    by destruct (py_getattr obj s). }
  split; [by apply get_base_class_app|split].
  - rewrite (get_base_class_app p [s] namespace obj) by done. cbn. by rewrite Hskip.
  - rewrite (get_base_class_app p (s :: q) namespace obj) by done.
    rewrite (get_base_class_app p q namespace obj) by done.
    cbn. by rewrite Hskip.
Qed.

Lemma mapM_Ok_iff {A B : Type} (f : A → result B) (l : list A) (k : list B) :
  mapM f l = Ok k ↔ Forall2 (λ x y, f x = Ok y) l k.
Proof.
  revert k. induction l as [|x l IH]; intros k; cbn.
  - split.
    + intros [= <-]. constructor.
    + intros Hk. inversion Hk. done.
  - unfold mbind, mret, result_bind, result_ret.
    destruct (f x) as [y|e] eqn:Hx.
    + destruct (mapM f l) as [k'|e] eqn:Hl.
      * split.
        { intros [= <-]. constructor; [done|]. by apply IH. }
        { intros Hk. inversion Hk as [|? y' ? k'' Hy Hrest]; subst.
          apply IH in Hrest. congruence. }
      * split; [done|].
        intros Hk. inversion Hk as [|? y' ? k'' Hy Hrest]; subst.
        by apply IH in Hrest.
    + split; [done|]. intros Hk. inversion Hk; congruence.
Qed.

Lemma mapM_Raise_iff {A B : Type} (f : A → result B) (l : list A) e :
  mapM f l = Raise e ↔
  ∃ l1 x l2, l = l1 ++ x :: l2
             ∧ Forall (λ y, succeeds (f y) = true) l1 ∧ f x = Raise e.
Proof.
  induction l as [|x l IH]; cbn.
  - split; [done|]. intros (l1 & y & l2 & Hl & _). by destruct l1.
  - unfold mbind, mret, result_bind, result_ret.
    destruct (f x) as [y|e'] eqn:Hx.
    + assert (Htail :
        (∃ l1 z l2, x :: l = l1 ++ z :: l2
                    ∧ Forall (λ y, succeeds (f y) = true) l1 ∧ f z = Raise e)
        ↔ mapM f l = Raise e).
      { rewrite IH. split.
        - intros (l1 & z & l2 & Heq & Hl1 & Hz).
          destruct l1 as [|x' l1]; cbn in Heq; injection Heq as -> ->; [congruence|].
          exists l1, z, l2. split; [done|]. split; [|done].
          by apply Forall_inv_tail in Hl1.
        - intros (l1 & z & l2 & -> & Hl1 & Hz).
          exists (x :: l1), z, l2. split; [done|]. split; [|done].
          constructor; [by rewrite Hx|done]. }
      rewrite Htail. by destruct (mapM f l).
    + split.
      * intros [= ->]. exists [], x, l. split; [done|]. split; [constructor|done].
      * intros (l1 & z & l2 & Heq & Hl1 & Hz).
        destruct l1 as [|x' l1]; cbn in Heq; injection Heq as -> ->; [congruence|].
        apply Forall_inv in Hl1. by rewrite Hx in Hl1.
Qed.

(** All or nothing, in order: [_get_base_classes] returns a list exactly when
    every path resolves, and then it holds one object for each path, in the
    order of the paths; it raises exactly the exception of the first path
    that does not resolve. *)
Theorem get_base_classes_all_or_nothing (frame : frame) namespace :
  (∀ bases, _get_base_classes frame namespace = Ok bases ↔
     Forall2 (λ p base, _get_base_class p namespace = Ok base)
       (_get_base_class_names frame) bases)
  ∧ (∀ e, _get_base_classes frame namespace = Raise e ↔
       ∃ before p after,
         _get_base_class_names frame = before ++ p :: after
         ∧ Forall (λ q, succeeds (_get_base_class q namespace) = true) before
         ∧ _get_base_class p namespace = Raise e).
Proof.
  split.
  - intros bases. apply mapM_Ok_iff.
  - intros e. apply mapM_Raise_iff.
Qed.

End ResolverMore.

(** * Further properties of the decorator *)

Section DecoratorMore.
Context `{Host}.

Implicit Types (st : state) (bases : list pyobj).

Lemma validate_method_missing super_class check_signature st e :
  py_getattr super_class (__name__ (the_method st)) = Raise e →
  _validate_method super_class check_signature st = (Raise e, st).
Proof.
  intros Hmissing. unfold _validate_method. run_steps. by rewrite Hmissing.
Qed.

(** Every outcome of [_overrides], case by case. *)
Lemma overrides_cases env check_signature check_at_runtime st :
  _overrides env check_signature check_at_runtime st =
    match resolved_base_classes env (the_method st) with
    | Raise e => (Raise e, marked st)
    | Ok bases =>
        match override_target bases (__name__ (the_method st)) with
        | None =>
            (Raise (TypeError (NoSuperClassMethod (__qualname__ (the_method st)))),
             marked st)
        | Some super_class =>
            if check_at_runtime
            then (Ok (Wrapper super_class check_signature), marked st)
            else
              match py_getattr super_class (__name__ (the_method st)) with
              | Raise e => (Raise e, marked st)
              | Ok super_method =>
                  if is_final super_method then
                    (Raise (TypeError
                       (Finalized (__name__ (the_method st)) super_class)),
                     marked st)
                  else if signature_checked check_signature
                            (__name__ (the_method st)) super_method
                  then
                    (match ensure_signature_is_compatible super_method
                             (checked_method super_method st)
                             (static_of super_class (__name__ (the_method st))) with
                     | None => Ok TheMethod
                     | Some msg => Raise (TypeError (Incompatible msg))
                     end,
                     {| the_method := checked_method super_method st;
                        events := events st
                          ++ [SignatureChecked super_method
                                (checked_method super_method st)
                                (static_of super_class (__name__ (the_method st)))] |})
                  else (Ok TheMethod, documented super_method (marked st))
              end
        end
    end.
Proof.
  rewrite overrides_unfold.
  destruct (resolved_base_classes env (the_method st)) as [bases|e]; [|done].
  destruct (override_target bases (__name__ (the_method st)))
    as [super_class|] eqn:Htarget.
  2:{ by rewrite first_super_class_none. }
  rewrite (first_super_class_found _ _ _ _ super_class) by exact Htarget.
  destruct check_at_runtime; [done|].
  unfold mbind, run_bind.
  destruct (py_getattr super_class (__name__ (the_method st)))
    as [super_method|e] eqn:Hget.
  2:{ by rewrite (validate_method_missing _ _ _ e). }
  rewrite (validate_method_found _ _ _ super_method) by exact Hget.
  destruct (is_final super_method); [done|]. cbn zeta.
  change (__name__ (the_method (marked st))) with (__name__ (the_method st)).
  destruct (signature_checked _ _ _); [|done].
  unfold checked_method.
  assert (events (documented super_method (marked st)) = events st) as ->.
  { unfold documented. by destruct (py_truth _). }
  by destruct (ensure_signature_is_compatible _ _ _).
Qed.

Lemma documented_fields super_method st :
  __name__ (the_method (documented super_method st)) = __name__ (the_method st)
  ∧ __qualname__ (the_method (documented super_method st)) =
      __qualname__ (the_method st)
  ∧ __module__ (the_method (documented super_method st)) =
      __module__ (the_method st)
  ∧ __globals__ (the_method (documented super_method st)) =
      __globals__ (the_method st)
  ∧ __override__ (the_method (documented super_method st)) =
      __override__ (the_method st)
  ∧ events (documented super_method st) = events st
  ∧ __doc__ (the_method (documented super_method st)) =
      (if py_truth (__doc__ (the_method st)) then __doc__ (the_method st)
       else docstring super_method).
Proof. unfold documented. by destruct (py_truth (__doc__ (the_method st))). Qed.

(** Decoration writes the marker and, at most, the docstring: the name, the
    qualified name, the module and the globals of the method are never
    changed, a docstring that is not empty is kept under every outcome, and
    the trace of outside calls only grows. *)
Theorem decoration_writes_marker_and_docstring_only
    env check_signature check_at_runtime st :
  __name__ (the_method (_overrides env check_signature check_at_runtime st).2) =
    __name__ (the_method st)
  ∧ __qualname__ (the_method (_overrides env check_signature check_at_runtime st).2) =
      __qualname__ (the_method st)
  ∧ __module__ (the_method (_overrides env check_signature check_at_runtime st).2) =
      __module__ (the_method st)
  ∧ __globals__ (the_method (_overrides env check_signature check_at_runtime st).2) =
      __globals__ (the_method st)
  ∧ (py_truth (__doc__ (the_method st)) = true →
       __doc__ (the_method (_overrides env check_signature check_at_runtime st).2) =
         __doc__ (the_method st))
  ∧ ∃ more,
      events (_overrides env check_signature check_at_runtime st).2 =
        events st ++ more.
Proof.
  rewrite overrides_cases.
  destruct (resolved_base_classes env (the_method st)) as [bases|e].
  2:{ repeat split; try done. exists []. by rewrite app_nil_r. }
  destruct (override_target bases (__name__ (the_method st))) as [super_class|].
  2:{ repeat split; try done. exists []. by rewrite app_nil_r. }
  destruct check_at_runtime.
  { repeat split; try done. exists []. by rewrite app_nil_r. }
  destruct (py_getattr super_class (__name__ (the_method st))) as [super_method|e].
  2:{ repeat split; try done. exists []. by rewrite app_nil_r. }
  destruct (is_final super_method).
  { repeat split; try done. exists []. by rewrite app_nil_r. }
  pose proof (documented_fields super_method (marked st))
    as (Hn & Hq & Hm & Hg & Ho & He & Hd).
  destruct (signature_checked _ _ _); cbn [snd the_method events];
    unfold checked_method; rewrite ?Hn, ?Hq, ?Hm, ?Hg, ?He, ?Hd; cbn;
    repeat split; eauto.
  - by intros ->.
  - by intros ->.
  - exists []. by rewrite app_nil_r.
Qed.

Lemma resolved_base_classes_same env (m1 m2 : method) :
  __globals__ m1 = __globals__ m2 → __module__ m1 = __module__ m2 →
  resolved_base_classes env m1 = resolved_base_classes env m2.
Proof. unfold resolved_base_classes. by intros -> ->. Qed.

Lemma checked_method_again super_method st st2 :
  the_method st2 = checked_method super_method st →
  checked_method super_method st2 = checked_method super_method st.
Proof.
  intros Hsame. unfold checked_method at 1. unfold documented, marked.
  cbn [the_method]. rewrite Hsame.
  unfold checked_method, documented, marked. cbn [the_method].
  change (__doc__ (set_override True_ (the_method st)))
    with (__doc__ (the_method st)).
  destruct (py_truth (__doc__ (the_method st))) eqn:Hdoc; cbn.
  - by rewrite Hdoc.
  - by destruct (py_truth (docstring super_method)).
Qed.

Lemma marked_again st st2 :
  the_method st2 = the_method (marked st) →
  the_method (marked st2) = the_method (marked st).
Proof. unfold marked. cbn [the_method]. by intros ->. Qed.

(** Decorating a method that was already decorated, in the same place and
    with the same options, gives the same outcome (the same return value or
    the same exception) and leaves the method object as the first decoration
    left it. *)
Theorem decorating_again_changes_nothing env check_signature check_at_runtime st :
  (_overrides env check_signature check_at_runtime
     (_overrides env check_signature check_at_runtime st).2).1 =
    (_overrides env check_signature check_at_runtime st).1
  ∧ the_method (_overrides env check_signature check_at_runtime
                  (_overrides env check_signature check_at_runtime st).2).2 =
      the_method (_overrides env check_signature check_at_runtime st).2.
Proof.
  assert (Hmarked : ∀ st2, the_method st2 = the_method (marked st) →
    resolved_base_classes env (the_method st2) =
      resolved_base_classes env (the_method st)
    ∧ __name__ (the_method st2) = __name__ (the_method st)
    ∧ __qualname__ (the_method st2) = __qualname__ (the_method st)).
  { intros st2 ->. done. }
  rewrite (overrides_cases env check_signature check_at_runtime st).
  destruct (resolved_base_classes env (the_method st)) as [bases|e] eqn:Hbases.
  2:{ cbn [fst snd]. rewrite overrides_cases.
      destruct (Hmarked (marked st) eq_refl) as (-> & _). done. }
  destruct (override_target bases (__name__ (the_method st)))
    as [super_class|] eqn:Htarget.
  2:{ cbn [fst snd]. rewrite overrides_cases.
      destruct (Hmarked (marked st) eq_refl) as (-> & -> & ->).
      by rewrite Htarget. }
  destruct check_at_runtime.
  { cbn [fst snd]. rewrite overrides_cases.
    destruct (Hmarked (marked st) eq_refl) as (-> & -> & ->).
    by rewrite Htarget. }
  destruct (py_getattr super_class (__name__ (the_method st)))
    as [super_method|e] eqn:Hget.
  2:{ cbn [fst snd]. rewrite overrides_cases.
      destruct (Hmarked (marked st) eq_refl) as (-> & -> & ->).
      by rewrite Htarget, Hget. }
  destruct (is_final super_method) eqn:Hfinal.
  { cbn [fst snd]. rewrite overrides_cases.
    destruct (Hmarked (marked st) eq_refl) as (-> & -> & ->).
    by rewrite Htarget, Hget, Hfinal. }
  pose proof (documented_fields super_method (marked st))
    as (Hn & Hq & Hm & Hg & _ & _ & _).
  assert (Hchecked : ∀ st2, the_method st2 = checked_method super_method st →
    (_overrides env check_signature false st2).1 =
      (if signature_checked check_signature (__name__ (the_method st)) super_method
       then match ensure_signature_is_compatible super_method
                    (checked_method super_method st)
                    (static_of super_class (__name__ (the_method st))) with
            | None => Ok TheMethod
            | Some msg => Raise (TypeError (Incompatible msg))
            end
       else Ok TheMethod)
    ∧ the_method (_overrides env check_signature false st2).2 =
        checked_method super_method st).
  { intros st2 Hsame. rewrite overrides_cases.
    rewrite (resolved_base_classes_same env (the_method st2) (the_method st))
      by (rewrite Hsame; unfold checked_method; by rewrite ?Hg, ?Hm).
    assert (__name__ (the_method st2) = __name__ (the_method st)) as ->
      by (rewrite Hsame; unfold checked_method; by rewrite Hn).
    rewrite Hbases, Htarget, Hget, Hfinal.
    rewrite (checked_method_again _ _ _ Hsame).
    destruct (signature_checked _ _ _); cbn [fst snd the_method]; [done|].
    split; [done|]. apply (checked_method_again _ _ _ Hsame). }
  destruct (signature_checked check_signature (__name__ (the_method st))
              super_method) eqn:Hsig; cbn [fst snd].
  - match goal with |- context [_overrides _ _ _ ?s] =>
      destruct (Hchecked s eq_refl) as [-> ->] end.
    done.
  - destruct (Hchecked (documented super_method (marked st)) eq_refl) as [-> ->].
    done.
Qed.

(** With [check_at_runtime] the decoration validates nothing: it marks the
    method and touches nothing else, it returns the wrapper around the
    override target when there is one, and the only [TypeError] it can raise
    is the one of line 117. *)
Theorem runtime_checking_defers_validation env check_signature st :
  _overrides env check_signature true st =
    (match resolved_base_classes env (the_method st) with
     | Raise e => Raise e
     | Ok bases =>
         match override_target bases (__name__ (the_method st)) with
         | Some super_class => Ok (Wrapper super_class check_signature)
         | None =>
             Raise (TypeError (NoSuperClassMethod (__qualname__ (the_method st))))
         end
     end,
     marked st).
Proof.
  rewrite overrides_cases.
  destruct (resolved_base_classes env (the_method st)) as [bases|e]; [|done].
  by destruct (override_target bases (__name__ (the_method st))).
Qed.

(** The checker is out of play when [check_signature] is false or the name
    of the method begins with two underscores: decoration then calls nothing
    outside the module and never raises a signature error. *)
Theorem no_signature_check_when_disabled env check_signature check_at_runtime st :
  check_signature = false
  ∨ String.prefix "__" (__name__ (the_method st)) = true →
  events (_overrides env check_signature check_at_runtime st).2 = events st
  ∧ ∀ msg, (_overrides env check_signature check_at_runtime st).1 ≠
             Raise (TypeError (Incompatible msg)).
Proof.
  intros Hoff. rewrite overrides_cases.
  destruct (resolved_base_classes env (the_method st)) as [bases|e] eqn:Hbases.
  2:{ split; [done|]. intros msg [= ->].
      by apply resolved_base_classes_no_type_error in Hbases. }
  destruct (override_target bases (__name__ (the_method st))) as [super_class|];
    [|done].
  destruct check_at_runtime; [done|].
  destruct (py_getattr super_class (__name__ (the_method st)))
    as [super_method|e] eqn:Hget.
  2:{ split; [done|]. intros msg [= ->]. revert Hget. unfold py_getattr.
      repeat case_match; congruence. }
  destruct (is_final super_method); [done|].
  assert (signature_checked check_signature (__name__ (the_method st))
            super_method = false) as ->.
  { unfold signature_checked. destruct Hoff as [-> | ->]; [done|].
    by rewrite andb_false_r. }
  split; [|done]. cbn [snd]. unfold documented. by destruct (py_truth _).
Qed.


Lemma override_target_first (before after : list pyobj) (super_class : pyobj)
    (name : string) :
  Forall (λ base, hasattr base name = false) before →
  hasattr super_class name = true →
  override_target (before ++ super_class :: after) name = Some super_class.
Proof.
  intros Hbefore Hhas. unfold override_target.
  induction Hbefore as [|base before Hbase _ IH]; cbn.
  - by rewrite Hhas.
  - by rewrite Hbase.
Qed.

(** Only the first base class that has the attribute counts: the base
    classes written before it (which lack the attribute) and all those
    written after it, whatever they hold, do not change what decoration
    does. *)
Theorem later_base_classes_are_ignored
    env check_signature check_at_runtime st before super_class after :
  resolved_base_classes env (the_method st) = Ok (before ++ super_class :: after) →
  Forall (λ base, hasattr base (__name__ (the_method st)) = false) before →
  hasattr super_class (__name__ (the_method st)) = true →
  _overrides env check_signature check_at_runtime st =
    first_super_class [super_class] check_signature check_at_runtime (marked st).
Proof.
  intros Hbases Hbefore Hhas.
  rewrite overrides_unfold, Hbases.
  rewrite (first_super_class_found _ _ _ _ super_class)
    by (by apply override_target_first).
  rewrite (first_super_class_found [super_class] _ _ _ super_class)
    by (by apply (override_target_first [] [])).
  done.
Qed.


(** When there is no frame three levels up (a function decorated outside
    any class statement, at the top of the running script), [_overrides]
    raises [ValueError], unless the method has no globals and its module is
    unknown, in which case the [KeyError] of the module comes first; the
    method is marked all the same. *)
Theorem decoration_needs_three_frames env check_signature check_at_runtime st :
  (length (call_stack env) ≤ 3)%nat →
  _overrides env check_signature check_at_runtime st =
    (match __globals__ (the_method st),
           sys_modules env !! __module__ (the_method st) with
     | None, None => Raise (KeyError (__module__ (the_method st)))
     | _, _ => Raise ValueError
     end,
     marked st).
Proof.
  intros Hshort. rewrite overrides_unfold.
  assert (Hframe : call_stack env !! 3%nat = None)
    by (apply lookup_ge_None; lia).
  unfold resolved_base_classes, module_vars, sys_getframe, mbind, result_bind.
  rewrite Hframe.
  destruct (__globals__ (the_method st)); [done|].
  by destruct (sys_modules env !! __module__ (the_method st)).
Qed.

(** The entry point reads one frame only, the second of its caller's stack
    (the one that runs the [class] statement when the caller is the class
    body): two interpreters with the same modules and the same second frame
    give the same outcome, whatever the other frames are.  Called without a
    method it touches nothing, and the partial it returns does, when called,
    what the direct call does. *)
Theorem overrides_reads_the_second_frame
    own1 own2 env1 env2 method check_signature check_at_runtime st :
  sys_modules env1 = sys_modules env2 →
  call_stack env1 !! 1%nat = call_stack env2 !! 1%nat →
  overrides own1 env1 method check_signature check_at_runtime st =
    overrides own2 env2 method check_signature check_at_runtime st
  ∧ overrides own1 env1 None check_signature check_at_runtime st =
      (Ok (Partial check_signature check_at_runtime), st)
  ∧ call_partial own1 env1 (Partial check_signature check_at_runtime) st =
      overrides own1 env1 (Some tt) check_signature check_at_runtime st.
Proof.
  intros Hmodules Hframe. split; [|done].
  destruct method as [[]|]; [|done].
  unfold overrides, mbind, run_bind.
  rewrite !overrides_unfold.
  assert (resolved_base_classes (entered own1.2 (entered own1.1 env1)) (the_method st) =
          resolved_base_classes (entered own2.2 (entered own2.1 env2)) (the_method st))
    as ->; [|done].
  unfold resolved_base_classes, module_vars, sys_getframe, entered.
  cbn [sys_modules call_stack].
  change ((own1.2 :: own1.1 :: call_stack env1) !! 3%nat)
    with (call_stack env1 !! 1%nat).
  change ((own2.2 :: own2.1 :: call_stack env2) !! 3%nat)
    with (call_stack env2 !! 1%nat).
  by rewrite Hmodules, Hframe.
Qed.

End DecoratorMore.

(** * The further properties on the sample data *)

Ltac all_handled :=
  repeat first
    [ apply List.Forall_nil
    | apply List.Forall_cons;
      [split; [unfold in_range; cbn; lia|split; [by_compute|reflexivity]]|] ].

Section MoreSamples.
Import Py38.

(** [STORE_NAME Sub], which follows the call that builds the class, is past
    [f_lasti] and not looked at. *)
Lemma names_stop_past_lasti_witness :
  _get_base_class_names (H := lenient) class_statement =
    _get_base_class_names (H := lenient)
      {| f_code := up_to_pkg ++ [LOAD_ATTR "Base" 12; CALL_FUNCTION "" 14];
         f_lasti := 14 |}.
Proof.
  change class_statement
    with {| f_code := (up_to_pkg ++ [LOAD_ATTR "Base" 12; CALL_FUNCTION "" 14])
                      ++ STORE_NAME "Sub" 16 :: [];
            f_lasti := 14 |}.
  apply (names_stop_past_lasti (H := lenient)). cbn. lia.
Defined.

Lemma names_depend_on_name_instructions_witness :
  filter (λ i, opcode i ∈ names_3_8) (f_code two_bases) = two_base_loads
  ∧ _get_base_class_names (H := lenient)
      {| f_code := two_base_loads; f_lasti := 16 |} =
    _get_base_class_names (H := lenient) two_bases.
Proof.
  split; [vm_compute; reflexivity|].
  change two_base_loads
    with (filter (λ i, opcode i ∈ hasname (Host := lenient)) (f_code two_bases)) at 1.
  apply (names_depend_on_name_instructions (H := lenient) 16 (f_code two_bases)).
  all_in_range.
Defined.

Lemma segments_come_from_loads_witness :
  ["pkg"; "Base"] ∈ _get_base_class_names (H := lenient) two_bases
  ∧ ∃ i, i ∈ f_code two_bases
         ∧ handled_load (H := lenient) 16 i ∧ argval i = "Base".
Proof.
  assert (Hp : ["pkg"; "Base"] ∈ _get_base_class_names (H := lenient) two_bases)
    by (vm_compute; left).
  split; [exact Hp|].
  apply (segments_come_from_loads (H := lenient) two_bases ["pkg"; "Base"] "Base" Hp).
  right. left.
Defined.

(** [class Sub(pkg.Base, Sealed)]: two paths, in the order written. *)
Lemma loads_are_read_back_witness :
  map token_of two_base_loads =
    concat (map path_tokens [["pkg"; "Base"]; ["Sealed"]])
  ∧ _get_base_class_names (H := lenient) two_bases = [["pkg"; "Base"]; ["Sealed"]].
Proof.
  split; [reflexivity|].
  apply (loads_are_read_back (H := lenient) 16 class_head two_base_loads
           [CALL_FUNCTION "" 16] [["pkg"; "Base"]; ["Sealed"]]).
  - all_in_range.
  - none_has_name.
  - all_handled.
  - reflexivity.
  - repeat constructor; discriminate.
Defined.

(** [nothing] is neither in the globals nor in their builtins, a [dict]. *)
Lemma get_base_class_failure_witness :
  _get_base_class ["nothing"; "Base"] globals = Raise (KeyError "nothing")
  ∧ _get_base_class ["nothing"] (delete "__builtins__" globals) =
      Raise (KeyError "__builtins__").
Proof.
  split.
  - apply (proj2 (get_base_class_failure "nothing" ["Base"] globals
                    (KeyError "nothing"))).
    vm_compute. done.
  - apply (proj2 (get_base_class_failure "nothing" []
                    (delete "__builtins__" globals) (KeyError "__builtins__"))).
    vm_compute. done.
Defined.

(** [pkg] resolves; [pkg.Base] continues from it; [pkg.missing.Base] is
    [pkg.Base]. *)
Lemma resolution_continues_from_prefix_witness :
  _get_base_class ["pkg"] globals = Ok pkg
  ∧ hasattr pkg "missing" = false
  ∧ _get_base_class (["pkg"] ++ ["Base"]) globals = Ok Base
  ∧ _get_base_class (["pkg"] ++ ["missing"]) globals = Ok pkg
  ∧ _get_base_class (["pkg"] ++ "missing" :: ["Base"]) globals =
      _get_base_class (["pkg"] ++ ["Base"]) globals.
Proof.
  assert (Hpkg : _get_base_class ["pkg"] globals = Ok pkg)
    by (vm_compute; reflexivity).
  assert (Hmissing : hasattr pkg "missing" = false) by (vm_compute; reflexivity).
  destruct (resolution_continues_from_prefix ["pkg"] ["Base"] globals pkg "missing"
              ltac:(discriminate) Hpkg Hmissing) as (Hq & Hs & Hdrop).
  split; [exact Hpkg|split; [exact Hmissing|split; [|split; [exact Hs|exact Hdrop]]]].
  rewrite Hq. vm_compute. reflexivity.
Defined.

(** Two bases that resolve, and a second base that does not. *)
Lemma get_base_classes_all_or_nothing_witness :
  _get_base_classes (H := lenient) two_bases globals = Ok [Base; Sealed]
  ∧ _get_base_classes (H := lenient) unknown_base globals =
      Raise (KeyError "nothing").
Proof.
  split.
  - apply (proj1 (get_base_classes_all_or_nothing (H := lenient) two_bases globals)
             [Base; Sealed]).
    assert (_get_base_class_names (H := lenient) two_bases
            = [["pkg"; "Base"]; ["Sealed"]]) as -> by (vm_compute; reflexivity).
    repeat constructor; vm_compute; reflexivity.
  - apply (proj2 (get_base_classes_all_or_nothing (H := lenient) unknown_base globals)
             (KeyError "nothing")).
    exists [["pkg"; "Base"]], ["nothing"], [].
    split; [vm_compute; reflexivity|split].
    + repeat constructor.
    + vm_compute. reflexivity.
Defined.

(** A method with a docstring keeps it, against a checker that rejects. *)
Lemma decoration_writes_marker_and_docstring_only_witness :
  py_truth (__doc__ m_with_doc) = true
  ∧ __doc__ (the_method
      (_overrides (H := strict) (stack_on class_statement) true false
         (start m_with_doc)).2) = str_ "Own documentation".
Proof.
  split; [reflexivity|].
  apply (decoration_writes_marker_and_docstring_only (H := strict)
           (stack_on class_statement) true false (start m_with_doc)).
  reflexivity.
Defined.

(** [check_signature] false: the checker that rejects everything is not
    asked. *)
Lemma no_signature_check_when_disabled_witness :
  events (_overrides (H := strict) (stack_on class_statement) false false
            (start m)).2 = []
  ∧ (_overrides (H := strict) (stack_on class_statement) false false (start m)).1 ≠
      Raise (TypeError (Incompatible "m: not compatible")).
Proof.
  destruct (no_signature_check_when_disabled (H := strict)
              (stack_on class_statement) false false (start m) (or_introl eq_refl))
    as [Hevents Hnever].
  split; [exact Hevents|apply Hnever].
Defined.


(** [class Sub(pkg.Base, Sealed)]: [Base] has [m], so the final [m] of
    [Sealed] is not seen and decoration succeeds. *)
Lemma later_base_classes_are_ignored_witness :
  resolved_base_classes (H := lenient) (stack_on two_bases) m = Ok [Base; Sealed]
  ∧ is_final sealed_m = true
  ∧ (_overrides (H := lenient) (stack_on two_bases) true false (start m)).1 =
      Ok TheMethod.
Proof.
  assert (Hbases : resolved_base_classes (H := lenient) (stack_on two_bases) m =
                   Ok ([] ++ Base :: [Sealed])) by (vm_compute; reflexivity).
  split; [exact Hbases|split; [vm_compute; reflexivity|]].
  rewrite (later_base_classes_are_ignored (H := lenient) (stack_on two_bases)
             true false (start m) [] Base [Sealed] Hbases
             ltac:(constructor) ltac:(vm_compute; reflexivity)).
  vm_compute. reflexivity.
Defined.


Lemma decoration_needs_three_frames_witness :
  _overrides (H := lenient) top_of_script true false (start m) =
    (Raise ValueError, marked (start m)).
Proof.
  apply (decoration_needs_three_frames (H := lenient) top_of_script true false
           (start m)).
  cbn. lia.
Defined.

(** Two class bodies, two depths of the stack, one [class] statement. *)
Lemma overrides_reads_the_second_frame_witness :
  overrides (H := lenient) (inner, inner)
    (in_class_body inner class_statement []) (Some tt) true false (start m) =
  overrides (H := lenient) (bare_statement, no_names)
    (in_class_body two_statements class_statement [inner; sealed_statement])
    (Some tt) true false (start m).
Proof.
  apply (overrides_reads_the_second_frame (H := lenient)); reflexivity.
Defined.

End MoreSamples.
